(** * Response resolution helpers of the TypeSpec Azure emitters

    A shallow embedding of the response helpers ([filterModelProperties],
    [filterResponseModels], [getHttpMetadata], [getOperationResponse],
    [getResultModelWithProperty], [getSuccessResponse],
    [getStatusCodeProperty], [getAllProperties]) and the properties of
    them that the design document states.

    Layout: the data model and the functions first, then the lemmas.
    - [JsMap]: the insertion-ordered JavaScript [Map] with string keys;
    - the type graph ([TType], [Model], [ModelProperty]) as a tree, which
      makes the inheritance chain finite and acyclic by construction;
    - [Program]: the decorator state the helpers query and the diagnostic
      sink they write to;
    - [Ref]: the same flattening walk over a store of model objects linked
      by references, where a chain may be cyclic, with the accumulator
      [Map]s allocated in a store of their own and a call stack of
      bounded depth. *)

From Stdlib Require Import List String Ascii Bool Arith Lia PrimFloat.
Import ListNotations.
Open Scope string_scope.
Open Scope list_scope.

Set Implicit Arguments.

(* ================================================================== *)
(** * Insertion-ordered maps *)
(* ================================================================== *)

(** A JavaScript [Map<string, V>]: entries in insertion order.  [set] on a
    key that is present replaces the value and keeps the entry's position;
    on a new key it appends the entry. *)
Module JsMap.

Definition t (V : Type) : Type := list (string * V).

Section Operations.
Variable V : Type.

Definition empty : t V := [].

Fixpoint set (m : t V) (k : string) (v : V) : t V :=
  match m with
  | [] => [(k, v)]
  | (k', v') :: rest =>
      if String.eqb k' k then (k', v) :: rest else (k', v') :: set rest k v
  end.

Fixpoint get (m : t V) (k : string) : option V :=
  match m with
  | [] => None
  | (k', v') :: rest => if String.eqb k' k then Some v' else get rest k
  end.

Definition has (m : t V) (k : string) : bool :=
  match get m k with Some _ => true | None => false end.

Definition entries (m : t V) : list (string * V) := m.
Definition keys (m : t V) : list string := map fst m.
Definition values (m : t V) : list V := map snd m.

(** [for (const [name, value] of es) m.set(name, value)] *)
Definition setAll (m : t V) (es : list (string * V)) : t V :=
  fold_left (fun out e => set out (fst e) (snd e)) es m.

(** The value of the last entry of [es] named [k]: what a run of [set]
    over [es] leaves under [k]. *)
Fixpoint lastEntry (es : list (string * V)) (k : string) : option V :=
  match es with
  | [] => None
  | (k', v') :: rest =>
      match lastEntry rest k with
      | Some v => Some v
      | None => if String.eqb k' k then Some v' else None
      end
  end.

(** The keys of [ks] in order of first occurrence, after those of [seen]. *)
Fixpoint firstOccurrences (seen ks : list string) : list string :=
  match ks with
  | [] => []
  | k :: rest =>
      if existsb (String.eqb k) seen then firstOccurrences seen rest
      else k :: firstOccurrences (seen ++ [k]) rest
  end.

End Operations.

Arguments empty {V}.

End JsMap.

(* ================================================================== *)
(** * The type graph *)
(* ================================================================== *)

(** A union variant is keyed by its name, or by a symbol when unnamed. *)
Inductive VariantKey : Type :=
| VariantName (name : string)
| VariantSymbol (id : nat).

(** [Type] of the compiler, by [kind]: the three body shapes the helpers
    inspect, the two literal kinds the status test reads, scalars, and
    every other kind.  [Model.properties] and [Union.variants] are
    insertion-ordered maps; a literal number is an IEEE double. *)
#[local] Unset Elimination Schemes.
Inductive TType : Type :=
| TModel (m : Model)
| TUnion (variants : list (VariantKey * TType))
| TTuple (values : list TType)
| TString (value : option string)
| TNumber (value : float)
| TScalar (name : string)
| TOther (kind : string)
with Model : Type :=
| mkModel (name : string)
          (properties : JsMap.t ModelProperty)
          (baseModel : option Model)
with ModelProperty : Type :=
| mkModelProperty (name : string) (type : option TType).
#[local] Set Elimination Schemes.

Definition modelName (m : Model) : string :=
  match m with mkModel n _ _ => n end.
Definition properties (m : Model) : JsMap.t ModelProperty :=
  match m with mkModel _ ps _ => ps end.
Definition baseModel (m : Model) : option Model :=
  match m with mkModel _ _ b => b end.
Definition propertyName (p : ModelProperty) : string :=
  match p with mkModelProperty n _ => n end.
Definition propertyType (p : ModelProperty) : option TType :=
  match p with mkModelProperty _ t => t end.

(** Induction along the inheritance chain, root first. *)
Fixpoint Model_chain_ind (P : Model -> Prop)
    (Hroot : forall n ps, P (mkModel n ps None))
    (Hstep : forall n ps b, P b -> P (mkModel n ps (Some b)))
    (m : Model) : P m :=
  match m with
  | mkModel n ps None => Hroot n ps
  | mkModel n ps (Some b) => Hstep n ps b (Model_chain_ind P Hroot Hstep b)
  end.

(** [kind] of a type, as the string the source switches on. *)
Definition kind (t : TType) : string :=
  match t with
  | TModel _ => "Model"
  | TUnion _ => "Union"
  | TTuple _ => "Tuple"
  | TString _ => "String"
  | TNumber _ => "Number"
  | TScalar _ => "Scalar"
  | TOther k => k
  end.

(* ================================================================== *)
(** * Flattening: [getAllProperties] *)
(* ================================================================== *)

(** [getAllProperties(model, collection?)]: every entry of
    [model.properties] is [set] into the accumulator, then the walk goes
    on with [model.baseModel] and the same accumulator. *)
Fixpoint getAllProperties (model : Model)
    (collection : option (JsMap.t ModelProperty)) : JsMap.t ModelProperty :=
  match model with
  | mkModel _ props base =>
      let outCollection :=
        match collection with Some c => c | None => JsMap.empty end in
      let outCollection := JsMap.setAll outCollection (JsMap.entries props) in
      match base with
      | Some b => getAllProperties b (Some outCollection)
      | None => outCollection
      end
  end.

(** The types of the chain, leaf first. *)
Fixpoint inheritanceChain (model : Model) : list Model :=
  match model with
  | mkModel _ _ base =>
      model :: match base with Some b => inheritanceChain b | None => [] end
  end.

(** Every declaration along the chain, in the order the walk meets them:
    the leaf's entries first, the root's last. *)
Definition chainDeclarations (model : Model) : list (string * ModelProperty) :=
  flat_map (fun m => JsMap.entries (properties m)) (inheritanceChain model).

(** [filterModelProperties(model, predicate)] *)
Definition filterModelProperties (model : Model)
    (predicate : ModelProperty -> bool) : list ModelProperty :=
  filter predicate (JsMap.values (getAllProperties model None)).

(* ------------------------------------------------------------------ *)
(** ** A three-level chain that redeclares [id] *)

Definition grandparentId : ModelProperty :=
  mkModelProperty "id" (Some (TScalar "int64")).
Definition parentId : ModelProperty :=
  mkModelProperty "id" (Some (TScalar "int32")).
Definition childId : ModelProperty :=
  mkModelProperty "id" (Some (TScalar "string")).
Definition childTag : ModelProperty :=
  mkModelProperty "tag" (Some (TScalar "string")).
Definition grandparentEtag : ModelProperty :=
  mkModelProperty "etag" (Some (TScalar "string")).

Definition Grandparent : Model :=
  mkModel "Grandparent" [("id", grandparentId); ("etag", grandparentEtag)] None.
Definition Parent : Model :=
  mkModel "Parent" [("id", parentId)] (Some Grandparent).
Definition Child : Model :=
  mkModel "Child" [("tag", childTag); ("id", childId)] (Some Parent).

(* ================================================================== *)
(** * Operations, the program and its diagnostic sink *)
(* ================================================================== *)

(** The compiler's [Operation]; the helpers only pass it on. *)
Record Operation : Type := { operationName : string }.

(** A diagnostic the HTTP library hands back from [getHttpOperation]. *)
Record Diagnostic : Type := { diagnosticCode : string; diagnosticMessage : string }.

(** One response of an HTTP operation; of its fields the helpers read
    [type] only. *)
Record HttpOperationResponse : Type := { responseType : TType }.

(** [HttpOperation]: the responses in declaration order. *)
Record HttpOperation : Type := { responses : list HttpOperationResponse }.

(** What reaches the diagnostic sink, one event per call:
    [program.reportDiagnostics(ds)] and the library's
    [reportDiagnostic(program, {code, target})]. *)
Inductive SinkEvent : Type :=
| ReportDiagnostics (diagnostics : list Diagnostic)
| ReportDiagnostic (code : string) (target : Operation).

(** The [Program] as the helpers see it.  The decorator state behind
    [isErrorModel] and [isStatusCode] and the HTTP library's
    [getHttpOperation] are taken as given; [sink] is the log of the
    reporting calls made so far, oldest first. *)
Record Program : Type := {
  errorModelState : Model -> bool;
  statusCodeState : ModelProperty -> bool;
  httpOperationState : Operation -> HttpOperation * list Diagnostic;
  sink : list SinkEvent
}.

Definition isErrorModel (program : Program) (model : Model) : bool :=
  errorModelState program model.
Definition isStatusCode (program : Program) (prop : ModelProperty) : bool :=
  statusCodeState program prop.
Definition getHttpOperation (program : Program) (operation : Operation)
  : HttpOperation * list Diagnostic :=
  httpOperationState program operation.

Definition emit (program : Program) (e : SinkEvent) : Program :=
  {| errorModelState := errorModelState program;
     statusCodeState := statusCodeState program;
     httpOperationState := httpOperationState program;
     sink := sink program ++ [e] |}.

(** [program.reportDiagnostics(diagnostics)] *)
Definition reportDiagnostics (program : Program) (diagnostics : list Diagnostic)
  : Program :=
  emit program (ReportDiagnostics diagnostics).

(** Modelled from the spec: [reportDiagnostic] of [./lib.js] is not among
    the sources; the sink is append-only and takes a code and the
    offending site, [report(code, target) -> void]. *)
Definition reportDiagnostic (program : Program) (code : string)
    (target : Operation) : Program :=
  emit program (ReportDiagnostic code target).

(** The events [program'] holds beyond those of [program]. *)
Definition emitted (program program' : Program) : list SinkEvent :=
  skipn (List.length (sink program)) (sink program').

(** The calls of the library's [reportDiagnostic] among [events]. *)
Definition libraryReports (events : list SinkEvent) : list SinkEvent :=
  filter (fun e => match e with
                   | ReportDiagnostic _ _ => true
                   | ReportDiagnostics _ => false
                   end) events.

(* ================================================================== *)
(** * The response helpers *)
(* ================================================================== *)

(** [models.push(x)] *)
Definition push (A : Type) (models : list A) (x : A) : list A := models ++ [x].

(** [filterResponseModels(operation, predicate)]: the loop over the
    responses with the [switch] on the body's kind, then the sentinel. *)
Definition filterResponseModels (operation : HttpOperation)
    (predicate : Model -> bool) : option (list Model) :=
  let models :=
    fold_left
      (fun models response =>
         match responseType response with
         | TModel m => if predicate m then push models m else models
         | TUnion variants =>
             fold_left
               (fun models variant =>
                  match snd variant with
                  | TModel m => if predicate m then push models m else models
                  | _ => models
                  end)
               variants models
         | TTuple values =>
             fold_left
               (fun models type =>
                  match type with
                  | TModel m => if predicate m then push models m else models
                  | _ => models
                  end)
               values models
         | _ => models
         end)
      (responses operation) [] in
  if (0 <? List.length models)%nat then Some models else None.

(** [getHttpMetadata(program, operation)] *)
Definition getHttpMetadata (program : Program) (operation : Operation)
  : HttpOperation * Program :=
  let '(httpOperation, diagnostics) := getHttpOperation program operation in
  let program :=
    if (0 <? List.length diagnostics)%nat then reportDiagnostics program diagnostics
    else program in
  (httpOperation, program).

(** [getStatusCodeProperty(program, model)] *)
Definition getStatusCodeProperty (program : Program) (model : Model)
  : option ModelProperty :=
  let properties :=
    filterModelProperties model (fun prop => isStatusCode program prop) in
  if (0 <? List.length properties)%nat then nth_error properties 0 else None.

(** [s.startsWith(prefix)] *)
Definition startsWith (s prefix : string) : bool := String.prefix prefix s.

(** The body of the [filter] callback of [getSuccessResponse], on the
    result of [getStatusCodeProperty]. *)
Definition statusCodeAccepted (prop : option ModelProperty) : bool :=
  match prop with
  | None => true
  | Some prop =>
      match propertyType prop with
      | Some (TString value) =>
          match value with Some s => startsWith s "2" | None => false end
      | Some (TNumber value) =>
          PrimFloat.leb 200 value && PrimFloat.ltb value 300
      | _ => false
      end
  end.

(** [getSuccessResponse(program, operation)] *)
Definition getSuccessResponse (program : Program) (operation : HttpOperation)
  : option Model :=
  let candidates :=
    option_map
      (filter (fun m => statusCodeAccepted (getStatusCodeProperty program m)))
      (filterResponseModels operation
         (fun response => negb (isErrorModel program response))) in
  match candidates with
  | None => None
  | Some candidates =>
      if (List.length candidates <? 1)%nat then None else nth_error candidates 0
  end.

(** [getOperationResponse(program, operation)]: the result and the
    program after the reporting calls.  The [!] on the returned value is
    erased by the TypeScript compiler: whatever [getSuccessResponse] gave
    is returned. *)
Definition getOperationResponse (program : Program) (operation : Operation)
  : option Model * Program :=
  let '(httpOperation, program) := getHttpMetadata program operation in
  let response := getSuccessResponse program httpOperation in
  let program :=
    match response with
    | None => reportDiagnostic program "expected-success-response" operation
    | Some _ => program
    end in
  (response, program).

(** [getResultModelWithProperty(program, operation, predicate)] *)
Definition getResultModelWithProperty (program : Program)
    (operation : Operation) (predicate : ModelProperty -> bool)
  : option (Model * ModelProperty) * Program :=
  let '(httpOperation, program) := getHttpMetadata program operation in
  let models :=
    filterResponseModels httpOperation
      (fun model => (0 <? List.length (filterModelProperties model predicate))%nat) in
  match models with
  | None => (None, program)
  | Some models =>
      if (List.length models <? 1)%nat then (None, program) else
      match nth_error models 0 with
      | None => (None, program)
      | Some model0 =>
          let properties :=
            filter predicate (JsMap.values (properties model0)) in
          if (List.length properties <? 1)%nat then (None, program) else
          match nth_error properties 0 with
          | None => (None, program)
          | Some property0 => (Some (model0, property0), program)
          end
      end
  end.

(* ------------------------------------------------------------------ *)
(** ** The behaviour the design document words, for comparison *)

(** The object types a body gives: itself, the object-type variants of a
    union, the object-type elements of a tuple, in declaration order. *)
Definition onlyModels (ts : list TType) : list Model :=
  flat_map (fun t => match t with TModel m => [m] | _ => [] end) ts.

Definition bodyModels (body : TType) : list Model :=
  match body with
  | TModel m => [m]
  | TUnion variants => onlyModels (map snd variants)
  | TTuple values => onlyModels values
  | _ => []
  end.

(** All object types of all responses, in declaration order. *)
Definition responseModels (operation : HttpOperation) : list Model :=
  flat_map (fun r => bodyModels (responseType r)) (responses operation).

(** The sequence an optional result stands for. *)
Definition orEmpty (A : Type) (r : option (list A)) : list A :=
  match r with Some l => l | None => [] end.

(* ------------------------------------------------------------------ *)
(** ** The status test, on the map that [getAllProperties] computes *)

(** The field the status test reads: the first field, in the order of
    the map that [getAllProperties] computes, that the program tags as
    status code.  Under a name declared at several levels that map holds
    the base-most declaration, so a tagged declaration of a derived type
    that a base type declares again without the tag is not among its
    fields. *)
Definition statusCodeField (program : Program) (model : Model)
  : option ModelProperty :=
  find (isStatusCode program) (JsMap.values (getAllProperties model None)).




(** A success candidate: not an error type, and passing the status test. *)
Definition isSuccessCandidate (program : Program) (model : Model) : bool :=
  negb (isErrorModel program model) &&
  statusCodeAccepted (statusCodeField program model).

(* ------------------------------------------------------------------ *)
(** ** The field search as the design document words it *)

(** The field search as worded: the first candidate whose flattened
    fields hold a match, with the first match of its flattened fields. *)
Definition findFieldAcrossResponses (operation : HttpOperation)
    (predicate : ModelProperty -> bool) : option (Model * ModelProperty) :=
  match
    find (fun m => existsb predicate (JsMap.values (getAllProperties m None)))
         (responseModels operation)
  with
  | None => None
  | Some owner =>
      match find predicate (JsMap.values (getAllProperties owner None)) with
      | None => None
      | Some field => Some (owner, field)
      end
  end.

(* ================================================================== *)
(** * Flattening over model objects linked by references *)
(* ================================================================== *)

(** In the running program a [Model] is an object and [baseModel] a
    reference to another, so a chain of references can come back to a
    type already met; the accumulator is a [Map] object that the calls
    share and mutate.  [Ref] follows the same source lines over a store
    of model objects and a store of [Map]s.  The recursive call of the
    source is a call like any other: it takes a frame of the call stack,
    and the engine throws [RangeError] (maximum call stack size
    exceeded) when no frame is left.  [fuel] is the number of nested
    calls of [getAllProperties] that the stack still allows; [None] is
    the outcome of the call that finds no frame left, which in the
    running program is that [RangeError]. *)
Module Ref.

Definition ModelRef : Type := nat.
Definition MapRef : Type := nat.

(** A model object: its own properties and the reference to its base. *)
Record ModelObject : Type := {
  objProperties : JsMap.t ModelProperty;
  objBaseModel : option ModelRef
}.

(** Every reference designates an object. *)
Definition ModelStore : Type := ModelRef -> ModelObject.

(** The [Map] objects allocated so far, and the models on which
    [getAllProperties] was entered, oldest first. *)
Record Heap : Type := {
  maps : list (JsMap.t ModelProperty);
  entered : list ModelRef
}.

Definition emptyHeap : Heap := {| maps := []; entered := [] |}.

(** [new Map()] *)
Definition newMap (h : Heap) : MapRef * Heap :=
  (List.length (maps h),
   {| maps := maps h ++ [JsMap.empty]; entered := entered h |}).

Definition readMap (h : Heap) (r : MapRef) : option (JsMap.t ModelProperty) :=
  nth_error (maps h) r.

Fixpoint updateAt (A : Type) (l : list A) (i : nat) (f : A -> A) : list A :=
  match l, i with
  | [], _ => []
  | x :: rest, 0 => f x :: rest
  | x :: rest, S i' => x :: updateAt rest i' f
  end.

(** The [for] loop of [set] calls on the map that [r] designates. *)
Definition setAllAt (h : Heap) (r : MapRef) (es : list (string * ModelProperty))
  : Heap :=
  {| maps := updateAt (maps h) r (fun m => JsMap.setAll m es);
     entered := entered h |}.

Definition enter (h : Heap) (model : ModelRef) : Heap :=
  {| maps := maps h; entered := entered h ++ [model] |}.

Fixpoint getAllProperties (fuel : nat) (store : ModelStore) (model : ModelRef)
    (collection : option MapRef) (h : Heap) : option (MapRef * Heap) :=
  match fuel with
  | 0 => None
  | S fuel' =>
      let h := enter h model in
      let '(outCollection, h) :=
        match collection with Some c => (c, h) | None => newMap h end in
      let h :=
        setAllAt h outCollection (JsMap.entries (objProperties (store model))) in
      match objBaseModel (store model) with
      | Some b => getAllProperties fuel' store b (Some outCollection) h
      | None => Some (outCollection, h)
      end
  end.

(** [Chain store r l]: following [baseModel] from [r] meets exactly the
    objects [l], the last of which has no base. *)
Inductive Chain (store : ModelStore) : ModelRef -> list ModelRef -> Prop :=
| ChainRoot (r : ModelRef) :
    objBaseModel (store r) = None -> Chain store r [r]
| ChainStep (r b : ModelRef) (l : list ModelRef) :
    objBaseModel (store r) = Some b -> Chain store b l -> Chain store r (r :: l).


(** The declarations of the objects [l], in order. *)
Definition declarationsOf (store : ModelStore) (l : list ModelRef)
  : list (string * ModelProperty) :=
  flat_map (fun r => JsMap.entries (objProperties (store r))) l.






(** The store that lays out the chain of a tree-shaped [Model]: object
    [i] is the [i]-th type of the chain, its base is object [i + 1]. *)
Definition storeOf (m : Model) : ModelStore :=
  fun r =>
    match nth_error (inheritanceChain m) r with
    | Some a =>
        {| objProperties := properties a;
           objBaseModel :=
             match baseModel a with Some _ => Some (S r) | None => None end |}
    | None => {| objProperties := JsMap.empty; objBaseModel := None |}
    end.

(** A type that names itself as its base. *)
Definition selfLoop : ModelStore :=
  fun _ => {| objProperties := [("id", childId)]; objBaseModel := Some 0 |}.


End Ref.

(* ================================================================== *)
(** * Sample programs and operations *)
(* ================================================================== *)

Definition statusCode (t : TType) : ModelProperty :=
  mkModelProperty "statusCode" (Some t).
Definition valueField : ModelProperty :=
  mkModelProperty "value" (Some (TScalar "string")).
Definition nextLinkField : ModelProperty :=
  mkModelProperty "nextLink" (Some (TScalar "url")).

(** [@error model Error { @statusCode statusCode: "404" }] *)
Definition ErrorBody : Model :=
  mkModel "Error" [("statusCode", statusCode (TString (Some "404")))] None.
(** [model Ok { @statusCode statusCode: 200; value: string }] *)
Definition OkBody : Model :=
  mkModel "Ok" [("statusCode", statusCode (TNumber 200)); ("value", valueField)]
          None.
(** [model Created { @statusCode statusCode: 201 }] *)
Definition CreatedBody : Model :=
  mkModel "Created" [("statusCode", statusCode (TNumber 201))] None.
(** [model Plain { value: string }] *)
Definition PlainBody : Model := mkModel "Plain" [("value", valueField)] None.
(** [model NotFoundBase { @statusCode statusCode: 404 }] and
    [model Missing extends NotFoundBase { value: string }] *)
Definition NotFoundBase : Model :=
  mkModel "NotFoundBase" [("statusCode", statusCode (TNumber 404))] None.
Definition Missing : Model :=
  mkModel "Missing" [("value", valueField)] (Some NotFoundBase).
(** [model PageBase { nextLink: url }] and
    [model Page extends PageBase { value: string }] *)
Definition PageBase : Model := mkModel "PageBase" [("nextLink", nextLinkField)] None.
Definition Page : Model := mkModel "Page" [("value", valueField)] (Some PageBase).

Definition response (t : TType) : HttpOperationResponse := {| responseType := t |}.

Definition opRead : Operation := {| operationName := "read" |}.
Definition opDelete : Operation := {| operationName := "delete" |}.
Definition opList : Operation := {| operationName := "list" |}.
Definition opCreate : Operation := {| operationName := "create" |}.

Definition sampleHttp (operation : Operation) : HttpOperation * list Diagnostic :=
  let name := operationName operation in
  if String.eqb name "read" then
    ({| responses := [response (TModel ErrorBody); response (TModel OkBody)] |}, [])
  else if String.eqb name "delete" then
    ({| responses := [response (TModel ErrorBody)] |},
     [{| diagnosticCode := "@typespec/http/no-service-found";
         diagnosticMessage := "no service" |}])
  else if String.eqb name "list" then
    ({| responses := [response (TModel Page)] |}, [])
  else if String.eqb name "find" then
    ({| responses := [response (TModel Missing)] |}, [])
  else if String.eqb name "create" then
    ({| responses :=
          [response (TScalar "string");
           response (TUnion [(VariantName "error", TModel ErrorBody);
                             (VariantSymbol 0, TScalar "int32");
                             (VariantName "created", TModel CreatedBody)]);
           response (TTuple [TModel PlainBody; TString (Some "x"); TModel OkBody])] |},
     [])
  else ({| responses := [] |}, []).

Definition isNextLink (p : ModelProperty) : bool :=
  String.eqb (propertyName p) "nextLink".

Definition sampleProgram : Program :=
  {| errorModelState := fun m => String.eqb (modelName m) "Error";
     statusCodeState := fun p => String.eqb (propertyName p) "statusCode";
     httpOperationState := sampleHttp;
     sink := [] |}.

(* ================================================================== *)
(** * Further definitions *)
(* ================================================================== *)

(** [type.kind === "Model"] *)
Definition isModel (t : TType) : bool :=
  match t with TModel _ => true | _ => false end.

(** The two kinds the status test of [getSuccessResponse] reads a value
    from: [kind === "String"] and [kind === "Number"]. *)
Definition isLiteralKind (t : option TType) : bool :=
  match t with
  | Some (TString _) | Some (TNumber _) => true
  | _ => false
  end.

(** [model Either { @statusCode statusCode: 200 | 201 }]: the status code
    is a union of literals. *)
Definition EitherBody : Model :=
  mkModel "Either"
    [("statusCode",
      statusCode (TUnion [(VariantSymbol 0, TNumber 200);
                          (VariantSymbol 1, TNumber 201)]))]
    None.





(** The version label of the documentation site
    ([website/docusaurus.config.ts]). *)
Module Website.

(** [s.split(sep)] for a separator of one character. *)
Fixpoint split (sep : ascii) (s : string) : list string :=
  match s with
  | EmptyString => [EmptyString]
  | String c rest =>
      if Ascii.eqb c sep then EmptyString :: split sep rest
      else
        match split sep rest with
        | [] => [String c EmptyString]
        | part :: parts => String c part :: parts
        end
  end.

(** A value inside a template literal: [undefined] prints as its name. *)
Definition interpolate (v : option string) : string :=
  match v with Some s => s | None => "undefined" end.

(** [getMajorMinorVersion(pkgJsonPath)]; [require] gives the [version]
    field of the package file at a path. *)
Definition getMajorMinorVersion (require : string -> string)
    (pkgJsonPath : string) : string :=
  let version := require pkgJsonPath in
  let parts := split "." version in
  let major := nth_error parts 0 in
  let minor := nth_error parts 1 in
  interpolate major ++ "." ++ interpolate minor ++ ".x".

(** No character of [s] is a dot. *)
Definition dotFree (s : string) : bool :=
  forallb (fun c => negb (Ascii.eqb c ".")) (list_ascii_of_string s).

End Website.

(* ================================================================== *)
(** * Lemmas on insertion-ordered maps *)
(* ================================================================== *)

Section JsMapFacts.
Variable V : Type.
Implicit Types (m : JsMap.t V) (k : string) (v : V).

Lemma JsMap_get_set_same m k v : JsMap.get (JsMap.set m k v) k = Some v.
Proof.
  induction m as [|[k' v'] rest IH]; simpl.
  - now rewrite String.eqb_refl.
  - destruct (String.eqb k' k) eqn:E; simpl; rewrite E; auto.
Qed.

Lemma JsMap_get_set_other m k k' v :
  k <> k' -> JsMap.get (JsMap.set m k v) k' = JsMap.get m k'.
Proof.
  intros Hne. induction m as [|[k0 v0] rest IH]; simpl.
  - destruct (String.eqb k k') eqn:E; auto.
    apply String.eqb_eq in E. contradiction.
  - destruct (String.eqb k0 k) eqn:E; simpl.
    + apply String.eqb_eq in E. subst k0.
      destruct (String.eqb k k') eqn:E'; auto.
      apply String.eqb_eq in E'. contradiction.
    + now rewrite IH.
Qed.

Lemma JsMap_get_setAll (es : list (string * V)) : forall m k,
  JsMap.get (JsMap.setAll m es) k =
  match JsMap.lastEntry es k with
  | Some v => Some v
  | None => JsMap.get m k
  end.
Proof.
  unfold JsMap.setAll.
  induction es as [|[k0 v0] rest IH]; intros m k; simpl; auto.
  rewrite IH. destruct (JsMap.lastEntry rest k) as [v|]; auto.
  destruct (String.eqb k0 k) eqn:E.
  - apply String.eqb_eq in E. subst. apply JsMap_get_set_same.
  - apply JsMap_get_set_other. intros ->. now rewrite String.eqb_refl in E.
Qed.

Lemma JsMap_setAll_app m (es1 es2 : list (string * V)) :
  JsMap.setAll m (es1 ++ es2) = JsMap.setAll (JsMap.setAll m es1) es2.
Proof. unfold JsMap.setAll. apply fold_left_app. Qed.

End JsMapFacts.

Section JsMapOrder.
Variable V : Type.
Implicit Types (m : JsMap.t V) (k : string) (v : V).

Lemma JsMap_keys_set m k v :
  JsMap.keys (JsMap.set m k v) =
  if existsb (String.eqb k) (JsMap.keys m) then JsMap.keys m
  else JsMap.keys m ++ [k].
Proof.
  induction m as [|[k' v'] rest IH]; simpl; auto.
  rewrite (String.eqb_sym k k').
  destruct (String.eqb k' k) eqn:E; simpl; auto.
  fold (JsMap.keys (JsMap.set rest k v)). fold (JsMap.keys rest).
  rewrite IH. now destruct (existsb (String.eqb k) (JsMap.keys rest)).
Qed.

Lemma JsMap_keys_setAll (es : list (string * V)) : forall m,
  JsMap.keys (JsMap.setAll m es) =
  JsMap.keys m ++ JsMap.firstOccurrences (JsMap.keys m) (map fst es).
Proof.
  unfold JsMap.setAll.
  induction es as [|[k v] rest IH]; intros m; simpl.
  - now rewrite app_nil_r.
  - rewrite IH, JsMap_keys_set.
    destruct (existsb (String.eqb k) (JsMap.keys m)); auto.
    now rewrite <- app_assoc.
Qed.



Lemma JsMap_get_In m k v : JsMap.get m k = Some v -> In (k, v) m.
Proof.
  induction m as [|[k' v'] rest IH]; simpl; [discriminate|].
  destruct (String.eqb k' k) eqn:E.
  - apply String.eqb_eq in E. subst. intros [= ->]. now left.
  - intros H. right. auto.
Qed.

Lemma existsb_eqb_In (k : string) (l : list string) :
  existsb (String.eqb k) l = true <-> In k l.
Proof.
  rewrite existsb_exists. split.
  - intros [x [Hin Hx]]. apply String.eqb_eq in Hx. now subst.
  - intros Hin. exists k. split; auto. apply String.eqb_refl.
Qed.

Lemma JsMap_get_absent m k : JsMap.get m k = None <-> ~ In k (JsMap.keys m).
Proof.
  induction m as [|[k' v'] rest IH]; simpl; [tauto|].
  destruct (String.eqb k' k) eqn:E.
  - apply String.eqb_eq in E. split; [discriminate|]. intros H. destruct H. auto.
  - rewrite IH. fold (JsMap.keys rest). split; [|tauto].
    intros H [Hk|Hk]; auto. subst. now rewrite String.eqb_refl in E.
Qed.

Lemma JsMap_lastEntry_absent (es : list (string * V)) k :
  JsMap.lastEntry es k = None <-> ~ In k (map fst es).
Proof.
  induction es as [|[k' v'] rest IH]; simpl; [tauto|].
  destruct (JsMap.lastEntry rest k) as [v|].
  - split; [discriminate|]. intros H. destruct H. right.
    destruct (in_dec string_dec k (map fst rest)) as [Hin|Hout]; auto.
    apply IH in Hout. discriminate.
  - destruct (String.eqb k' k) eqn:E.
    + apply String.eqb_eq in E. split; [discriminate|]. intros H. destruct H. auto.
    + split; [|reflexivity]. intros _ [Hk|Hk].
      * subst. now rewrite String.eqb_refl in E.
      * now apply (proj1 IH).
Qed.

Lemma firstOccurrences_seen (ks : list string) : forall seen,
  (forall k, In k ks -> In k seen) -> JsMap.firstOccurrences seen ks = [].
Proof.
  induction ks as [|k rest IH]; intros seen Hall; simpl; auto.
  assert (existsb (String.eqb k) seen = true) as ->.
  { apply existsb_eqb_In. apply Hall. now left. }
  apply IH. intros k' Hk'. apply Hall. now right.
Qed.

Lemma JsMap_keys_set_NoDup m k v :
  NoDup (JsMap.keys m) -> NoDup (JsMap.keys (JsMap.set m k v)).
Proof.
  intros Hnd. rewrite JsMap_keys_set.
  destruct (existsb (String.eqb k) (JsMap.keys m)) eqn:E; auto.
  apply NoDup_app; auto.
  - constructor; [intros []|constructor].
  - intros x Hx [<-|[]]. apply existsb_eqb_In in Hx. congruence.
Qed.

Lemma JsMap_keys_setAll_NoDup (es : list (string * V)) : forall m,
  NoDup (JsMap.keys m) -> NoDup (JsMap.keys (JsMap.setAll m es)).
Proof.
  unfold JsMap.setAll.
  induction es as [|[k v] rest IH]; intros m Hnd; simpl; auto.
  apply IH. now apply JsMap_keys_set_NoDup.
Qed.

(** Two maps with the same keys in the same order and the same value
    under every key are the same map. *)
Lemma JsMap_ext m1 : forall m2,
  NoDup (JsMap.keys m1) ->
  JsMap.keys m1 = JsMap.keys m2 ->
  (forall k, JsMap.get m1 k = JsMap.get m2 k) ->
  m1 = m2.
Proof.
  induction m1 as [|[k1 v1] rest1 IH]; intros [|[k2 v2] rest2] Hnd Hkeys Hget;
    try discriminate; auto.
  simpl in Hkeys. injection Hkeys as <- Hkeys.
  pose proof (Hget k1) as Hk. simpl in Hk. rewrite String.eqb_refl in Hk.
  injection Hk as <-.
  inversion Hnd as [|? ? Hout Hnd']; subst.
  f_equal. apply IH; auto.
  intros k. pose proof (Hget k) as Hk. simpl in Hk.
  destruct (String.eqb k1 k) eqn:E; auto.
  apply String.eqb_eq in E. subst k.
  pose proof Hout as Hout2. fold (JsMap.keys rest1) in Hout, Hout2.
  rewrite Hkeys in Hout2.
  apply JsMap_get_absent in Hout. apply JsMap_get_absent in Hout2. congruence.
Qed.

(** Running the same [set]s again on their result changes nothing. *)
Lemma JsMap_setAll_again (es : list (string * V)) :
  JsMap.setAll (JsMap.setAll JsMap.empty es) es = JsMap.setAll JsMap.empty es.
Proof.
  set (m := JsMap.setAll JsMap.empty es).
  assert (Hget : forall k, JsMap.get m k = JsMap.lastEntry es k).
  { intros k. unfold m. rewrite JsMap_get_setAll.
    now destruct (JsMap.lastEntry es k). }
  apply JsMap_ext.
  - apply JsMap_keys_setAll_NoDup. unfold m.
    apply JsMap_keys_setAll_NoDup. constructor.
  - rewrite JsMap_keys_setAll, firstOccurrences_seen; [apply app_nil_r|].
    intros k Hin.
    destruct (in_dec string_dec k (JsMap.keys m)) as [Hk|Hk]; auto.
    apply JsMap_get_absent in Hk. rewrite Hget in Hk.
    apply JsMap_lastEntry_absent in Hk. contradiction.
  - intros k. rewrite JsMap_get_setAll, Hget.
    now destruct (JsMap.lastEntry es k).
Qed.

End JsMapOrder.

(* ================================================================== *)
(** * Flattening along the chain *)
(* ================================================================== *)

Lemma chainDeclarations_step n ps b :
  chainDeclarations (mkModel n ps (Some b)) = ps ++ chainDeclarations b.
Proof. reflexivity. Qed.

Lemma chainDeclarations_root n ps :
  chainDeclarations (mkModel n ps None) = ps.
Proof. unfold chainDeclarations. simpl. apply app_nil_r. Qed.

(** The walk is one run of [set] over the chain's declarations. *)
Lemma getAllProperties_setAll (m : Model) : forall acc,
  getAllProperties m (Some acc) = JsMap.setAll acc (chainDeclarations m).
Proof.
  induction m as [n ps|n ps b IH] using Model_chain_ind; intros acc.
  - now rewrite chainDeclarations_root.
  - simpl. rewrite IH, chainDeclarations_step.
    unfold JsMap.entries. now rewrite JsMap_setAll_app.
Qed.

Lemma getAllProperties_fresh (m : Model) :
  getAllProperties m None = JsMap.setAll JsMap.empty (chainDeclarations m).
Proof.
  rewrite <- getAllProperties_setAll. now destruct m as [n ps [b|]].
Qed.

(** The flattened map of a derived type is the walk over its base,
    started from the derived type's own entries. *)
Lemma getAllProperties_base (m b : Model) :
  baseModel m = Some b ->
  getAllProperties m None =
  getAllProperties b (Some (JsMap.setAll JsMap.empty (properties m))).
Proof. destruct m as [n ps base]. simpl. now intros ->. Qed.

(** What a base type's flattened map holds under a name, the derived
    type's flattened map holds under that name too. *)
Lemma getAllProperties_inherits (m b : Model) (k : string) (p : ModelProperty) :
  baseModel m = Some b ->
  JsMap.get (getAllProperties b None) k = Some p ->
  JsMap.get (getAllProperties m None) k = Some p.
Proof.
  intros Hb Hget. rewrite (getAllProperties_base _ Hb), getAllProperties_setAll.
  rewrite getAllProperties_fresh in Hget.
  rewrite JsMap_get_setAll in *.
  destruct (JsMap.lastEntry (chainDeclarations b) k); auto. discriminate.
Qed.

(** Walking a type again with its flattened map as the collection gives
    that map back. *)
Lemma getAllProperties_again (m : Model) :
  getAllProperties m (Some (getAllProperties m None)) = getAllProperties m None.
Proof.
  rewrite getAllProperties_setAll, getAllProperties_fresh.
  apply JsMap_setAll_again.
Qed.

(** C1, as the design document states it, fails on the three-level chain:
    under ["id"] the flattened map of [Child] holds the declaration of
    [Grandparent], not [Child]'s own. *)
Lemma getAllProperties_child_id_from_grandparent :
  JsMap.get (getAllProperties Child None) "id" = Some grandparentId /\
  JsMap.get (properties Child) "id" = Some childId /\
  JsMap.get (getAllProperties Child None) "id" <>
  JsMap.get (properties Child) "id".
Proof.
  repeat split; try reflexivity.
  simpl. intros H. discriminate H.
Qed.

(** What the entries of one type leave under a name when no later write
    touches it. *)
Lemma getAllProperties_own (m b : Model) (k : string) :
  baseModel m = Some b ->
  JsMap.get (getAllProperties b None) k = None ->
  JsMap.get (getAllProperties m None) k = JsMap.lastEntry (properties m) k.
Proof.
  intros Hb Hget. rewrite (getAllProperties_base _ Hb), getAllProperties_setAll.
  rewrite getAllProperties_fresh in Hget.
  rewrite JsMap_get_setAll in *.
  destruct (JsMap.lastEntry (chainDeclarations b) k); [discriminate|].
  rewrite JsMap_get_setAll. now destruct (JsMap.lastEntry (properties m) k).
Qed.

(** C1 (amended): under every name the flattened map holds the last
    declaration of that name met on the walk from leaf to base, which is
    the one of the base-most type declaring it, since [set] replaces the
    value of an entry already present: what the flattened map of the base
    type holds under a name, the flattened map of the derived type holds
    too, and the derived type's own declaration stays only under a name
    that no ancestor declares.  The names stand in the order of their
    first declaration on that walk. *)
Theorem getAllProperties_last_declaration_wins (m : Model) :
  (forall k, JsMap.get (getAllProperties m None) k =
             JsMap.lastEntry (chainDeclarations m) k) /\
  (forall b, baseModel m = Some b ->
     forall k,
       JsMap.get (getAllProperties m None) k =
       match JsMap.get (getAllProperties b None) k with
       | Some inherited => Some inherited
       | None => JsMap.lastEntry (properties m) k
       end) /\
  JsMap.keys (getAllProperties m None) =
  JsMap.firstOccurrences [] (map fst (chainDeclarations m)).
Proof.
  split; [|split].
  - intros k. rewrite getAllProperties_fresh, JsMap_get_setAll.
    now destruct (JsMap.lastEntry (chainDeclarations m) k).
  - intros b Hb k.
    destruct (JsMap.get (getAllProperties b None) k) as [p|] eqn:E.
    + exact (getAllProperties_inherits m k Hb E).
    + exact (getAllProperties_own m k Hb E).
  - now rewrite getAllProperties_fresh, JsMap_keys_setAll.
Qed.

(** C1 (amended), on the three-level chain: [Parent] takes ["id"] from
    [Grandparent], and [Child] takes it from [Parent]'s flattened map. *)
Lemma getAllProperties_last_declaration_wins_child :
  baseModel Child = Some Parent /\
  JsMap.get (getAllProperties Child None) "id" = Some grandparentId /\
  JsMap.keys (getAllProperties Child None) = ["tag"; "id"; "etag"].
Proof.
  split; [reflexivity|].
  destruct (getAllProperties_last_declaration_wins Child) as (_ & Hbase & Hkeys).
  split.
  - rewrite (Hbase Parent eq_refl "id"). reflexivity.
  - rewrite Hkeys. reflexivity.
Defined.

(* ================================================================== *)
(** * The response shape normalizer *)
(* ================================================================== *)

Section Normalizer.
Variable predicate : Model -> bool.

(** The inner loops: over tuple elements and over union variants. *)
Lemma tuple_loop (values : list TType) : forall models,
  fold_left
    (fun models type =>
       match type with
       | TModel m => if predicate m then push models m else models
       | _ => models
       end) values models
  = models ++ filter predicate (onlyModels values).
Proof.
  induction values as [|t rest IH]; intros models; simpl.
  - now rewrite app_nil_r.
  - rewrite IH. destruct t; simpl; auto.
    destruct (predicate m); simpl; auto.
    unfold push. now rewrite <- app_assoc.
Qed.

Lemma union_loop (variants : list (VariantKey * TType)) : forall models,
  fold_left
    (fun models variant =>
       match snd variant with
       | TModel m => if predicate m then push models m else models
       | _ => models
       end) variants models
  = models ++ filter predicate (onlyModels (map snd variants)).
Proof.
  induction variants as [|[key t] rest IH]; intros models; simpl.
  - now rewrite app_nil_r.
  - rewrite IH. destruct t; simpl; auto.
    destruct (predicate m); simpl; auto.
    unfold push. now rewrite <- app_assoc.
Qed.

Lemma filter_flat_map (A B : Type) (f : B -> bool) (g : A -> list B) (l : list A) :
  filter f (flat_map g l) = flat_map (fun x => filter f (g x)) l.
Proof.
  induction l as [|x rest IH]; simpl; auto.
  now rewrite filter_app, IH.
Qed.

(** The outer loop over the responses. *)
Lemma response_loop (rs : list HttpOperationResponse) : forall models,
  fold_left
    (fun models response =>
       match responseType response with
       | TModel m => if predicate m then push models m else models
       | TUnion variants =>
           fold_left
             (fun models variant =>
                match snd variant with
                | TModel m => if predicate m then push models m else models
                | _ => models
                end)
             variants models
       | TTuple values =>
           fold_left
             (fun models type =>
                match type with
                | TModel m => if predicate m then push models m else models
                | _ => models
                end)
             values models
       | _ => models
       end) rs models
  = models ++ filter predicate (responseModels {| responses := rs |}).
Proof.
  unfold responseModels. simpl.
  induction rs as [|r rest IH]; intros models; simpl.
  - now rewrite app_nil_r.
  - rewrite IH, filter_app, app_assoc. f_equal.
    destruct (responseType r) as [m|variants|values|s|v|s|k]; simpl;
      try now rewrite app_nil_r.
    + destruct (predicate m); [reflexivity | now rewrite app_nil_r].
    + apply union_loop.
    + apply tuple_loop.
Qed.

(** The normalizer, in one equation. *)
Lemma filterResponseModels_eq (operation : HttpOperation) :
  filterResponseModels operation predicate =
  match filter predicate (responseModels operation) with
  | [] => None
  | l => Some l
  end.
Proof.
  unfold filterResponseModels. rewrite response_loop. simpl.
  destruct operation as [rs]. simpl.
  now destruct (filter predicate (responseModels {| responses := rs |})).
Qed.

Lemma orEmpty_filterResponseModels (operation : HttpOperation) :
  orEmpty (filterResponseModels operation predicate) =
  filter predicate (responseModels operation).
Proof.
  rewrite filterResponseModels_eq.
  now destruct (filter predicate (responseModels operation)).
Qed.

End Normalizer.

(** C5: the normalizer gives the matching object types of all responses,
    in order, when there is one, and the absent sentinel when there is
    none; it never gives an empty sequence. *)
Theorem filterResponseModels_sentinel (operation : HttpOperation)
    (predicate : Model -> bool) :
  filterResponseModels operation predicate =
  match filter predicate (responseModels operation) with
  | [] => None
  | m :: rest => Some (m :: rest)
  end /\
  filterResponseModels operation predicate <> Some [] /\
  (filterResponseModels operation predicate = None <->
   forall m, In m (responseModels operation) -> predicate m = false).
Proof.
  rewrite filterResponseModels_eq.
  destruct (filter predicate (responseModels operation)) as [|m rest] eqn:E.
  - repeat split; try discriminate.
    intros _ m Hin. destruct (predicate m) eqn:Hp; auto.
    assert (In m []) as []. rewrite <- E. apply filter_In. auto.
  - repeat split; try discriminate.
    intros H. assert (In m (m :: rest)) as Hin by now left.
    rewrite <- E in Hin. apply filter_In in Hin. destruct Hin as [Hin Hp].
    rewrite (H _ Hin) in Hp. discriminate.
Qed.

(** C7: a response contributes by the shape of its body: an object type
    is taken when it matches; of a union the matching object-type
    variants, of a tuple the matching object-type elements, both in
    declaration order; members that are no object types and bodies of
    any other kind contribute nothing; the contributions of the responses
    follow one another in declaration order. *)
Theorem filterResponseModels_by_shape (predicate : Model -> bool) :
  let found rs := orEmpty (filterResponseModels {| responses := rs |} predicate) in
  (forall m, found [response (TModel m)] = if predicate m then [m] else []) /\
  (forall variants,
      found [response (TUnion variants)] =
      filter predicate (onlyModels (map snd variants))) /\
  (forall values,
      found [response (TTuple values)] = filter predicate (onlyModels values)) /\
  (forall body,
      match body with
      | TModel _ | TUnion _ | TTuple _ => True
      | _ => found [response body] = []
      end) /\
  (forall m ts, onlyModels (TModel m :: ts) = m :: onlyModels ts) /\
  (forall t ts,
      match t with
      | TModel _ => True
      | _ => onlyModels (t :: ts) = onlyModels ts
      end) /\
  (forall rs1 rs2, found (rs1 ++ rs2) = found rs1 ++ found rs2).
Proof.
  intros found. unfold found.
  repeat split; intros.
  - rewrite orEmpty_filterResponseModels. unfold responseModels. simpl.
    now destruct (predicate m).
  - rewrite orEmpty_filterResponseModels. unfold responseModels. simpl.
    now rewrite app_nil_r.
  - rewrite orEmpty_filterResponseModels. unfold responseModels. simpl.
    now rewrite app_nil_r.
  - destruct body; auto; now rewrite orEmpty_filterResponseModels.
  - destruct t; auto.
  - rewrite !orEmpty_filterResponseModels. unfold responseModels. simpl.
    now rewrite flat_map_app, filter_app.
Qed.

(* ================================================================== *)
(** * The success classifier *)
(* ================================================================== *)

Lemma nth_error_filter_find (A : Type) (f : A -> bool) (l : list A) :
  nth_error (filter f l) 0 = find f l.
Proof.
  induction l as [|x rest IH]; simpl; auto.
  now destruct (f x).
Qed.

(** [l.length < 1 ? undefined : l[0]] is [l[0]], absent on the empty list. *)
Lemma first_or_absent (A : Type) (l : list A) :
  (if (List.length l <? 1)%nat then None else nth_error l 0) = nth_error l 0.
Proof. now destruct l. Qed.

Lemma find_filter (A : Type) (f g : A -> bool) (l : list A) :
  find g (filter f l) = find (fun x => f x && g x) l.
Proof.
  induction l as [|x rest IH]; simpl; auto.
  destruct (f x); simpl; auto. now destruct (g x).
Qed.

Lemma find_pointwise (A : Type) (f g : A -> bool) (l : list A) :
  (forall x, f x = g x) -> find f l = find g l.
Proof.
  intros H. induction l as [|x rest IH]; simpl; auto.
  now rewrite H, IH.
Qed.

(** [properties.length > 0 ? properties[0] : undefined] is the first
    tagged field of the flattened map. *)
Lemma getStatusCodeProperty_find (program : Program) (model : Model) :
  getStatusCodeProperty program model = statusCodeField program model.
Proof.
  unfold getStatusCodeProperty, statusCodeField, filterModelProperties.
  rewrite <- nth_error_filter_find.
  now destruct (filter _ _).
Qed.



Lemma getSuccessResponse_find (program : Program) (operation : HttpOperation) :
  getSuccessResponse program operation =
  find (isSuccessCandidate program) (responseModels operation).
Proof.
  unfold getSuccessResponse, isSuccessCandidate.
  rewrite filterResponseModels_eq.
  rewrite <- (find_filter (fun m => negb (isErrorModel program m))
                (fun m => statusCodeAccepted (statusCodeField program m))).
  rewrite (find_pointwise _
             (fun m => statusCodeAccepted (getStatusCodeProperty program m))).
  2: { intros m. now rewrite getStatusCodeProperty_find. }
  rewrite <- nth_error_filter_find.
  destruct (filter (fun m => negb (isErrorModel program m))
              (responseModels operation)) as [|c cs]; [reflexivity|].
  cbn [option_map]. apply first_or_absent.
Qed.

(* ================================================================== *)
(** * The diagnostic reporting boundary *)
(* ================================================================== *)

Lemma skipn_length_app (A : Type) (l x : list A) :
  skipn (List.length l) (l ++ x) = x.
Proof. induction l as [|a rest IH]; simpl; auto. Qed.

Lemma getHttpMetadata_fst (program : Program) (operation : Operation) :
  fst (getHttpMetadata program operation) =
  fst (getHttpOperation program operation).
Proof.
  unfold getHttpMetadata. now destruct (getHttpOperation program operation).
Qed.

(** [getHttpMetadata] passes the HTTP library's diagnostics on in one
    call, and makes no call when there are none. *)
Lemma getHttpMetadata_sink (program : Program) (operation : Operation) :
  sink (snd (getHttpMetadata program operation)) =
  sink program ++
  match snd (getHttpOperation program operation) with
  | [] => []
  | ds => [ReportDiagnostics ds]
  end.
Proof.
  unfold getHttpMetadata.
  destruct (getHttpOperation program operation) as [h [|d ds]]; simpl; auto.
  now rewrite app_nil_r.
Qed.

(** Reporting leaves the decorator state alone, so the classification
    reads the same before and after [getHttpMetadata]. *)
Lemma getSuccessResponse_after_metadata (program : Program)
    (operation : Operation) (h : HttpOperation) :
  getSuccessResponse (snd (getHttpMetadata program operation)) h =
  getSuccessResponse program h.
Proof.
  unfold getHttpMetadata.
  destruct (getHttpOperation program operation) as [h' [|d ds]]; reflexivity.
Qed.

Lemma getOperationResponse_eq (program : Program) (operation : Operation) :
  getOperationResponse program operation =
  (getSuccessResponse program (fst (getHttpOperation program operation)),
   match getSuccessResponse program (fst (getHttpOperation program operation)) with
   | None => reportDiagnostic (snd (getHttpMetadata program operation))
               "expected-success-response" operation
   | Some _ => snd (getHttpMetadata program operation)
   end).
Proof.
  unfold getOperationResponse.
  rewrite <- getHttpMetadata_fst.
  rewrite <- (getSuccessResponse_after_metadata program operation).
  now destruct (getHttpMetadata program operation) as [h p1].
Qed.

Lemma libraryReports_metadata (program : Program) (operation : Operation) :
  libraryReports (emitted program (snd (getHttpMetadata program operation))) = [].
Proof.
  unfold emitted. rewrite getHttpMetadata_sink, skipn_length_app.
  now destruct (snd (getHttpOperation program operation)).
Qed.

(** C4: when the success classification of an operation is absent, the
    boundary makes exactly one report, of kind expected-success-response
    and targeting that operation, and returns; when the classification is
    an object type it returns that object type and makes no report. *)
Theorem getOperationResponse_reports_once (program : Program)
    (operation : Operation) :
  let classification :=
    getSuccessResponse program (fst (getHttpOperation program operation)) in
  let afterMetadata := snd (getHttpMetadata program operation) in
  let result := getOperationResponse program operation in
  (classification = None ->
   result = (None, reportDiagnostic afterMetadata
                     "expected-success-response" operation) /\
   sink (snd result) =
   sink afterMetadata ++
   [ReportDiagnostic "expected-success-response" operation] /\
   libraryReports (emitted program (snd result)) =
   [ReportDiagnostic "expected-success-response" operation]) /\
  (forall m, classification = Some m ->
   result = (Some m, afterMetadata) /\
   libraryReports (emitted program (snd result)) = []).
Proof.
  intros classification afterMetadata result.
  unfold result. rewrite getOperationResponse_eq.
  fold classification. fold afterMetadata. split.
  - intros ->. repeat split. cbn [snd].
    unfold emitted, reportDiagnostic, emit. cbn [sink].
    unfold afterMetadata. rewrite getHttpMetadata_sink.
    rewrite <- app_assoc, skipn_length_app.
    now destruct (snd (getHttpOperation program operation)).
  - intros m ->. split; [reflexivity|].
    apply libraryReports_metadata.
Qed.

(** C4, on an operation whose only response is an error type, and on one
    with an error response and a 200 response. *)
Lemma getOperationResponse_reports_once_samples :
  (getSuccessResponse sampleProgram (fst (getHttpOperation sampleProgram opDelete))
   = None /\
   libraryReports
     (emitted sampleProgram (snd (getOperationResponse sampleProgram opDelete)))
   = [ReportDiagnostic "expected-success-response" opDelete]) /\
  (getSuccessResponse sampleProgram (fst (getHttpOperation sampleProgram opRead))
   = Some OkBody /\
   getOperationResponse sampleProgram opRead = (Some OkBody, sampleProgram)).
Proof.
  split; (split; [reflexivity|]).
  - apply (proj1 (getOperationResponse_reports_once sampleProgram opDelete)).
    reflexivity.
  - apply (proj2 (getOperationResponse_reports_once sampleProgram opRead) OkBody).
    reflexivity.
Defined.

(** C9: when no success response exists, what [getOperationResponse]
    hands to its caller is the absent value itself. *)
Theorem getOperationResponse_returns_absent (program : Program)
    (operation : Operation) :
  getSuccessResponse program (fst (getHttpOperation program operation)) = None ->
  fst (getOperationResponse program operation) = None.
Proof.
  intros H. now rewrite getOperationResponse_eq, H.
Qed.

(** C9, on an operation whose only response is an error type. *)
Lemma getOperationResponse_returns_absent_delete :
  getSuccessResponse sampleProgram (fst (getHttpOperation sampleProgram opDelete))
  = None /\
  fst (getOperationResponse sampleProgram opDelete) = None.
Proof.
  split; [reflexivity|].
  apply (getOperationResponse_returns_absent sampleProgram opDelete).
  reflexivity.
Defined.

(* ================================================================== *)
(** * The status-code lookup and inherited fields *)
(* ================================================================== *)

Lemma find_values_In (V : Type) (f : V -> bool) (m : JsMap.t V) (v : V) :
  find f (JsMap.values m) = Some v -> f v = true /\ exists k, In (k, v) m.
Proof.
  intros H. apply find_some in H. destruct H as [Hin Hf]. split; auto.
  unfold JsMap.values in Hin. apply in_map_iff in Hin.
  destruct Hin as [[k v'] [Hv Hin]]. simpl in Hv. subst. eauto.
Qed.




(* ================================================================== *)
(** * The field search *)
(* ================================================================== *)

Lemma nonempty_filter_existsb (A : Type) (f : A -> bool) (l : list A) :
  (0 <? List.length (filter f l))%nat = existsb f l.
Proof.
  induction l as [|x rest IH]; simpl; auto.
  destruct (f x); simpl; auto.
Qed.

(** What the field search computes: the first object type whose
    flattened fields hold a match, paired with the first match among the
    fields that object type declares itself. *)
Lemma getResultModelWithProperty_eq (program : Program) (operation : Operation)
    (predicate : ModelProperty -> bool) :
  fst (getResultModelWithProperty program operation predicate) =
  match
    find (fun m => existsb predicate (JsMap.values (getAllProperties m None)))
         (responseModels (fst (getHttpOperation program operation)))
  with
  | None => None
  | Some model0 =>
      match find predicate (JsMap.values (properties model0)) with
      | None => None
      | Some property0 => Some (model0, property0)
      end
  end.
Proof.
  unfold getResultModelWithProperty.
  rewrite <- getHttpMetadata_fst.
  destruct (getHttpMetadata program operation) as [h p1]. cbn [fst].
  rewrite filterResponseModels_eq.
  rewrite (filter_ext _
    (fun m => existsb predicate (JsMap.values (getAllProperties m None)))).
  2: { intros m. unfold filterModelProperties. apply nonempty_filter_existsb. }
  rewrite <- nth_error_filter_find.
  destruct (filter _ (responseModels h)) as [|model0 rest]; [reflexivity|].
  cbn [List.length Nat.ltb Nat.leb nth_error].
  rewrite <- nth_error_filter_find.
  destruct (filter predicate (JsMap.values (properties model0)));
    reflexivity.
Qed.

(** When the chosen candidate holds its match only by inheritance, the
    search returns absent although the flattened fields hold a match. *)
Lemma getResultModelWithProperty_own_fields_only (program : Program)
    (operation : Operation) (predicate : ModelProperty -> bool) (model0 : Model) :
  find (fun m => existsb predicate (JsMap.values (getAllProperties m None)))
       (responseModels (fst (getHttpOperation program operation)))
  = Some model0 ->
  find predicate (JsMap.values (properties model0)) = None ->
  fst (getResultModelWithProperty program operation predicate) = None /\
  exists field,
    find predicate (JsMap.values (getAllProperties model0 None)) = Some field.
Proof.
  intros Hfirst Hown. rewrite getResultModelWithProperty_eq, Hfirst, Hown.
  split; [reflexivity|].
  apply find_some in Hfirst. destruct Hfirst as [_ Hex].
  apply existsb_exists in Hex. destruct Hex as [f [Hin Hf]].
  destruct (find predicate (JsMap.values (getAllProperties model0 None)))
    as [field|] eqn:E; [eauto|].
  rewrite (find_none _ _ E _ Hin) in Hf. discriminate.
Qed.

(** C2, at an operation whose only response is [Page], which inherits
    [nextLink] from [PageBase]: [Page] is the chosen candidate, its
    flattened fields hold the match, and the search still returns absent,
    where the first match of the flattened fields would be returned with
    [Page]. *)
Theorem getResultModelWithProperty_misses_inherited :
  filterResponseModels (fst (getHttpOperation sampleProgram opList))
    (fun model => (0 <? List.length (filterModelProperties model isNextLink))%nat)
  = Some [Page] /\
  find isNextLink (JsMap.values (getAllProperties Page None))
  = Some nextLinkField /\
  fst (getResultModelWithProperty sampleProgram opList isNextLink) = None /\
  findFieldAcrossResponses (fst (getHttpOperation sampleProgram opList)) isNextLink
  = Some (Page, nextLinkField).
Proof. repeat split. Qed.

(* ================================================================== *)
(** * The walk over linked model objects *)
(* ================================================================== *)

Section UpdateAt.
Variable A : Type.
Implicit Types (l : list A) (f g : A -> A).

Lemma updateAt_ext l i f g :
  (forall x, f x = g x) -> Ref.updateAt l i f = Ref.updateAt l i g.
Proof.
  intros H. revert i. induction l as [|x rest IH]; intros [|i]; simpl; auto.
  - now rewrite H.
  - now rewrite IH.
Qed.

Lemma updateAt_twice l i f g :
  Ref.updateAt (Ref.updateAt l i f) i g = Ref.updateAt l i (fun x => g (f x)).
Proof.
  revert i. induction l as [|x rest IH]; intros [|i]; simpl; auto.
  now rewrite IH.
Qed.

Lemma updateAt_fresh l x f :
  Ref.updateAt (l ++ [x]) (List.length l) f = l ++ [f x].
Proof. induction l as [|y rest IH]; simpl; auto. now rewrite IH. Qed.

Lemma nth_error_fresh l x : nth_error (l ++ [x]) (List.length l) = Some x.
Proof. induction l as [|y rest IH]; simpl; auto. Qed.

Lemma nth_error_kept l x i :
  i < List.length l -> nth_error (l ++ [x]) i = nth_error l i.
Proof. intros H. now apply nth_error_app1. Qed.

End UpdateAt.

Section Walk.
Variable store : Ref.ModelStore.

Lemma Chain_head r l : Ref.Chain store r l -> exists t, l = r :: t.
Proof. destruct 1; eauto. Qed.




(** With a collection passed in, the walk over a chain runs the [set]s
    of all its declarations on that collection and enters each type of
    the chain once, given one unit of fuel per type. *)
Lemma Ref_walk_into r l :
  Ref.Chain store r l ->
  forall fuel c h, List.length l <= fuel ->
  Ref.getAllProperties fuel store r (Some c) h =
  Some (c, {| Ref.maps :=
                Ref.updateAt (Ref.maps h) c
                  (fun m => JsMap.setAll m (Ref.declarationsOf store l));
              Ref.entered := Ref.entered h ++ l |}).
Proof.
  induction 1 as [r Hroot|r b l Hb Hchain IH]; intros fuel c h Hfuel;
    (destruct fuel as [|fuel]; [simpl in Hfuel; lia|]);
    cbn [Ref.getAllProperties].
  - rewrite Hroot. unfold Ref.setAllAt, Ref.enter, Ref.declarationsOf.
    cbn [Ref.maps Ref.entered flat_map]. do 3 f_equal.
    apply updateAt_ext. intros m. now rewrite app_nil_r.
  - rewrite Hb, IH by (simpl in Hfuel; lia).
    unfold Ref.setAllAt, Ref.enter, Ref.declarationsOf.
    cbn [Ref.maps Ref.entered flat_map]. do 2 f_equal.
    rewrite updateAt_twice, <- app_assoc. f_equal.
    apply updateAt_ext. intros m. now rewrite JsMap_setAll_app.
Qed.

(** With no collection passed in, the walk allocates one [Map] and
    leaves in it the [set]s of all the chain's declarations. *)
Lemma Ref_walk_fresh r l :
  Ref.Chain store r l ->
  forall fuel h, List.length l <= fuel ->
  Ref.getAllProperties fuel store r None h =
  Some (List.length (Ref.maps h),
        {| Ref.maps :=
             Ref.maps h ++
             [JsMap.setAll JsMap.empty (Ref.declarationsOf store l)];
           Ref.entered := Ref.entered h ++ l |}).
Proof.
  intros Hchain fuel h Hfuel.
  destruct fuel as [|fuel]; [destruct Hchain; simpl in Hfuel; lia|].
  cbn [Ref.getAllProperties]. unfold Ref.newMap, Ref.enter.
  cbn [Ref.maps Ref.entered].
  destruct Hchain as [r Hroot|r b l Hb Hchain].
  - rewrite Hroot. unfold Ref.setAllAt, Ref.declarationsOf.
    cbn [Ref.maps Ref.entered flat_map].
    now rewrite updateAt_fresh, app_nil_r.
  - rewrite Hb, (Ref_walk_into Hchain) by (simpl in Hfuel; lia).
    unfold Ref.setAllAt, Ref.declarationsOf.
    cbn [Ref.maps Ref.entered flat_map].
    rewrite updateAt_twice, updateAt_fresh, <- app_assoc.
    now rewrite JsMap_setAll_app.
Qed.


End Walk.

(** On a type that is its own base every call makes another call. *)
Lemma selfLoop_no_return :
  forall fuel collection h,
    Ref.getAllProperties fuel Ref.selfLoop 0 collection h = None.
Proof.
  induction fuel as [|fuel IH]; intros collection h; [reflexivity|].
  cbn [Ref.getAllProperties].
  destruct (match collection with
            | Some c => (c, Ref.enter h 0)
            | None => Ref.newMap (Ref.enter h 0)
            end) as [out h'].
  apply IH.
Qed.

Lemma selfLoop_no_chain r l : ~ Ref.Chain Ref.selfLoop r l.
Proof. induction 1 as [r Hroot|r b l Hb Hchain IH]; [discriminate|auto]. Qed.







(* ================================================================== *)
(** * Flattening twice *)
(* ================================================================== *)

(** C8: two calls of [getAllProperties] on the same object type, each
    without a collection, return two distinct [Map]s with the same
    entries: the same keys, in the same order, with the same
    declarations; the second call leaves the first [Map] as it was. *)
Theorem getAllProperties_twice_identical (store : Ref.ModelStore)
    (r : Ref.ModelRef) (l : list Ref.ModelRef) :
  Ref.Chain store r l ->
  forall fuel h, List.length l <= fuel ->
  exists out1 h1 out2 h2 flat,
    Ref.getAllProperties fuel store r None h = Some (out1, h1) /\
    Ref.getAllProperties fuel store r None h1 = Some (out2, h2) /\
    out1 <> out2 /\
    Ref.readMap h1 out1 = Some flat /\
    Ref.readMap h2 out1 = Some flat /\
    Ref.readMap h2 out2 = Some flat.
Proof.
  intros Hchain fuel h Hfuel.
  pose proof (Ref_walk_fresh Hchain h Hfuel) as H1.
  set (flat := JsMap.setAll JsMap.empty (Ref.declarationsOf store l)) in *.
  set (h1 := {| Ref.maps := Ref.maps h ++ [flat];
                Ref.entered := Ref.entered h ++ l |}) in *.
  pose proof (Ref_walk_fresh Hchain h1 Hfuel) as H2.
  fold flat in H2.
  eexists _, h1, _, _, flat.
  split; [exact H1|]. split; [exact H2|].
  unfold Ref.readMap, h1. cbn [Ref.maps].
  repeat split.
  - rewrite length_app. simpl. lia.
  - apply nth_error_fresh.
  - rewrite nth_error_kept; [apply nth_error_fresh|].
    rewrite length_app. simpl. lia.
  - apply nth_error_fresh.
Qed.

(** C8, on the three-level chain laid out as objects 0, 1, 2. *)
Lemma getAllProperties_twice_identical_child :
  Ref.Chain (Ref.storeOf Child) 0 [0; 1; 2] /\
  exists out1 h1 out2 h2 flat,
    Ref.getAllProperties 3 (Ref.storeOf Child) 0 None Ref.emptyHeap
    = Some (out1, h1) /\
    Ref.getAllProperties 3 (Ref.storeOf Child) 0 None h1 = Some (out2, h2) /\
    out1 <> out2 /\
    Ref.readMap h1 out1 = Some flat /\
    Ref.readMap h2 out1 = Some flat /\
    Ref.readMap h2 out2 = Some flat.
Proof.
  assert (Hchain : Ref.Chain (Ref.storeOf Child) 0 [0; 1; 2]).
  { apply Ref.ChainStep with (b := 1); [reflexivity|].
    apply Ref.ChainStep with (b := 2); [reflexivity|].
    apply Ref.ChainRoot. reflexivity. }
  split; [exact Hchain|].
  exact (getAllProperties_twice_identical Hchain Ref.emptyHeap (le_n 3)).
Defined.

(* ================================================================== *)
(** * The tree and the linked objects agree *)
(* ================================================================== *)

Lemma skipn_cons_nth (A : Type) (l : list A) : forall i x t,
  skipn i l = x :: t -> nth_error l i = Some x /\ skipn (S i) l = t.
Proof.
  induction l as [|y rest IH]; intros [|i] x t H; simpl in *;
    try discriminate.
  - injection H as -> ->. auto.
  - apply IH in H. exact H.
Qed.

(** The objects that [storeOf] lays out form the chain of the tree, with
    the tree's declarations. *)
Lemma storeOf_chain (m a : Model) : forall i,
  skipn i (inheritanceChain m) = inheritanceChain a ->
  Ref.Chain (Ref.storeOf m) i (seq i (List.length (inheritanceChain a))) /\
  Ref.declarationsOf (Ref.storeOf m) (seq i (List.length (inheritanceChain a)))
  = chainDeclarations a.
Proof.
  induction a as [n ps|n ps b IH] using Model_chain_ind; intros i Hskip.
  - apply skipn_cons_nth in Hskip. destruct Hskip as [Hnth _].
    assert (Ref.storeOf m i =
            {| Ref.objProperties := ps; Ref.objBaseModel := None |}) as Hobj.
    { unfold Ref.storeOf. now rewrite Hnth. }
    split.
    + apply Ref.ChainRoot. now rewrite Hobj.
    + unfold Ref.declarationsOf. simpl. now rewrite Hobj.
  - cbn [inheritanceChain] in Hskip.
    apply skipn_cons_nth in Hskip. destruct Hskip as [Hnth Hrest].
    assert (Ref.storeOf m i =
            {| Ref.objProperties := ps; Ref.objBaseModel := Some (S i) |})
      as Hobj.
    { unfold Ref.storeOf. now rewrite Hnth. }
    destruct (IH (S i) Hrest) as [Hchain Hdecl].
    cbn [inheritanceChain List.length seq]. split.
    + apply Ref.ChainStep with (b := S i); [now rewrite Hobj | exact Hchain].
    + rewrite chainDeclarations_step, <- Hdecl.
      unfold Ref.declarationsOf. cbn [flat_map]. now rewrite Hobj.
Qed.

(** On the objects of a tree-shaped type the walk over references
    returns the map that [getAllProperties] computes on the tree. *)
Lemma Ref_getAllProperties_storeOf (m : Model) (fuel : nat) (h : Ref.Heap) :
  List.length (inheritanceChain m) <= fuel ->
  Ref.getAllProperties fuel (Ref.storeOf m) 0 None h =
  Some (List.length (Ref.maps h),
        {| Ref.maps := Ref.maps h ++ [getAllProperties m None];
           Ref.entered :=
             Ref.entered h ++ seq 0 (List.length (inheritanceChain m)) |}).
Proof.
  intros Hfuel.
  destruct (storeOf_chain m m 0 eq_refl) as [Hchain Hdecl].
  rewrite (Ref_walk_fresh Hchain) by now rewrite length_seq.
  now rewrite Hdecl, getAllProperties_fresh.
Qed.

(* ================================================================== *)
(** * Worked examples *)
(* ================================================================== *)

(** An error response with status ["404"] and a response with status
    [200]: the success body is the second. *)
Example success_explicit_status :
  getSuccessResponse sampleProgram (fst (getHttpOperation sampleProgram opRead))
  = Some OkBody.
Proof. reflexivity. Qed.

(** A single response without status-code field is the success body. *)
Example success_implicit_default :
  getSuccessResponse sampleProgram {| responses := [response (TModel PlainBody)] |}
  = Some PlainBody.
Proof. reflexivity. Qed.

(** A union of an error type and a 201 type gives the 201 type, and so
    does the tuple of the two. *)
Example success_in_union_and_tuple :
  getSuccessResponse sampleProgram
    {| responses := [response (TUnion [(VariantName "a", TModel ErrorBody);
                                       (VariantName "b", TModel CreatedBody)])] |}
  = Some CreatedBody /\
  getSuccessResponse sampleProgram
    {| responses := [response (TTuple [TModel ErrorBody; TModel CreatedBody])] |}
  = Some CreatedBody.
Proof. split; reflexivity. Qed.

(** The normalizer on a scalar body, a union and a tuple. *)
Example normalizer_order :
  filterResponseModels (fst (getHttpOperation sampleProgram opCreate))
    (fun _ => true)
  = Some [ErrorBody; CreatedBody; PlainBody; OkBody] /\
  filterResponseModels (fst (getHttpOperation sampleProgram opCreate))
    (fun _ => false)
  = None.
Proof. split; reflexivity. Qed.

(** The status test on literal values. *)
Example status_literals :
  statusCodeAccepted (Some (statusCode (TNumber 200))) = true /\
  statusCodeAccepted (Some (statusCode (TNumber 299.5))) = true /\
  statusCodeAccepted (Some (statusCode (TNumber 300))) = false /\
  statusCodeAccepted (Some (statusCode (TNumber 199))) = false /\
  statusCodeAccepted (Some (statusCode (TNumber nan))) = false /\
  statusCodeAccepted (Some (statusCode (TString (Some "204")))) = true /\
  statusCodeAccepted (Some (statusCode (TString (Some "404")))) = false /\
  statusCodeAccepted (Some (statusCode (TString (Some "")))) = false /\
  statusCodeAccepted (Some (statusCode (TString None))) = false /\
  statusCodeAccepted (Some (statusCode (TScalar "int32"))) = false /\
  statusCodeAccepted (Some (mkModelProperty "statusCode" None)) = false /\
  statusCodeAccepted None = true.
Proof. repeat split. Qed.

(** The field search on a body that declares its fields itself: absent
    when no field matches, the owner and the field when one does. *)
Example field_search_own_fields :
  fst (getResultModelWithProperty sampleProgram opList
         (isStatusCode sampleProgram)) = None /\
  fst (getResultModelWithProperty sampleProgram opRead
         (isStatusCode sampleProgram))
  = Some (ErrorBody, statusCode (TString (Some "404"))).
Proof. split; reflexivity. Qed.

(** An operation whose only response is an error type: no success body,
    and one report after the HTTP library's diagnostics were passed on. *)
Example no_success_reported :
  getOperationResponse sampleProgram opDelete =
  (None,
   {| errorModelState := errorModelState sampleProgram;
      statusCodeState := statusCodeState sampleProgram;
      httpOperationState := sampleHttp;
      sink := [ReportDiagnostics (snd (sampleHttp opDelete));
               ReportDiagnostic "expected-success-response" opDelete] |}).
Proof. reflexivity. Qed.

(** The walk over references on the three-level chain gives the map the
    walk over the tree gives. *)
Example reference_walk_child :
  Ref.getAllProperties 3 (Ref.storeOf Child) 0 None Ref.emptyHeap =
  Some (0, {| Ref.maps := [getAllProperties Child None];
              Ref.entered := [0; 1; 2] |}) /\
  getAllProperties Child None =
  [("tag", childTag); ("id", grandparentId); ("etag", grandparentEtag)].
Proof. split; reflexivity. Qed.

(* ================================================================== *)
(** * Further properties of flattening *)
(* ================================================================== *)

Section JsMapMore.
Variable V : Type.
Implicit Types (m : JsMap.t V) (k : string) (v : V).

Lemma JsMap_In_get m k v :
  NoDup (JsMap.keys m) -> In (k, v) m -> JsMap.get m k = Some v.
Proof.
  induction m as [|[k' v'] rest IH]; simpl; [intros _ []|].
  intros Hnd [Heq|Hin].
  - injection Heq as -> ->. now rewrite String.eqb_refl.
  - inversion Hnd as [|? ? Hout Hnd']; subst.
    destruct (String.eqb k' k) eqn:E; auto.
    apply String.eqb_eq in E. subst k'. destruct Hout.
    change (In k (map fst rest)). apply in_map_iff. now exists (k, v).
Qed.

Lemma JsMap_lastEntry_app (es1 es2 : list (string * V)) k :
  JsMap.lastEntry (es1 ++ es2) k =
  match JsMap.lastEntry es2 k with
  | Some v => Some v
  | None => JsMap.lastEntry es1 k
  end.
Proof.
  induction es1 as [|[k' v'] rest IH]; simpl.
  - now destruct (JsMap.lastEntry es2 k).
  - rewrite IH. now destruct (JsMap.lastEntry es2 k).
Qed.

Lemma JsMap_keys_setAll_In (es : list (string * V)) m k :
  In k (JsMap.keys (JsMap.setAll m es)) <->
  In k (JsMap.keys m) \/ In k (map fst es).
Proof.
  pose proof (JsMap_get_absent (JsMap.setAll m es) k) as H1.
  pose proof (JsMap_get_absent m k) as H2.
  pose proof (JsMap_lastEntry_absent es k) as H3.
  rewrite JsMap_get_setAll in H1.
  destruct (in_dec string_dec k (JsMap.keys (JsMap.setAll m es)));
    destruct (in_dec string_dec k (JsMap.keys m));
    destruct (in_dec string_dec k (map fst es));
    destruct (JsMap.lastEntry es k); destruct (JsMap.get m k);
    try tauto;
    try (exfalso; (apply H1; [reflexivity|assumption])
                  || (apply H2; [reflexivity|assumption])
                  || (apply H3; [reflexivity|assumption])).
  all: try (assert (Some v = None) as Habs by tauto; discriminate Habs).
  all: try (assert (Some v0 = None) as Habs by tauto; discriminate Habs).
Qed.

(** Running on a map the [set]s of entries whose tail the map already
    absorbed changes nothing. *)
Lemma JsMap_setAll_absorbs (es1 es2 : list (string * V)) :
  JsMap.setAll (JsMap.setAll JsMap.empty (es1 ++ es2)) es2 =
  JsMap.setAll JsMap.empty (es1 ++ es2).
Proof.
  set (m := JsMap.setAll JsMap.empty (es1 ++ es2)).
  assert (Hget : forall k, JsMap.get m k = JsMap.lastEntry (es1 ++ es2) k).
  { intros k. unfold m. rewrite JsMap_get_setAll.
    now destruct (JsMap.lastEntry (es1 ++ es2) k). }
  apply JsMap_ext.
  - apply JsMap_keys_setAll_NoDup. unfold m.
    apply JsMap_keys_setAll_NoDup. constructor.
  - rewrite JsMap_keys_setAll, firstOccurrences_seen; [apply app_nil_r|].
    intros k Hin. unfold m. apply JsMap_keys_setAll_In. right.
    rewrite map_app. apply in_or_app. now right.
  - intros k. rewrite JsMap_get_setAll, Hget, JsMap_lastEntry_app.
    now destruct (JsMap.lastEntry es2 k).
Qed.

End JsMapMore.

Lemma getAllProperties_keys_NoDup (m : Model) :
  NoDup (JsMap.keys (getAllProperties m None)).
Proof.
  rewrite getAllProperties_fresh. apply JsMap_keys_setAll_NoDup. constructor.
Qed.

Lemma chainDeclarations_names (m : Model) (k : string) :
  In k (map fst (chainDeclarations m)) <->
  exists a, In a (inheritanceChain m) /\ In k (JsMap.keys (properties a)).
Proof.
  unfold chainDeclarations, JsMap.keys, JsMap.entries.
  rewrite in_map_iff. split.
  - intros [[k' v] [Hk Hin]]. simpl in Hk. subst k'.
    apply in_flat_map in Hin. destruct Hin as [a [Ha Hin]].
    exists a. split; auto. apply in_map_iff. now exists (k, v).
  - intros [a [Ha Hin]]. apply in_map_iff in Hin.
    destruct Hin as [[k' v] [Hk Hin]]. simpl in Hk. subst k'.
    exists (k, v). split; auto. apply in_flat_map. eauto.
Qed.

Lemma chainDeclarations_suffix (m a : Model) :
  In a (inheritanceChain m) ->
  exists pre, chainDeclarations m = pre ++ chainDeclarations a.
Proof.
  induction m as [n ps|n ps b IH] using Model_chain_ind.
  - intros [<-|[]]. now exists [].
  - cbn [inheritanceChain]. intros [<-|Hin]; [now exists []|].
    destruct (IH Hin) as [pre Hpre]. exists (ps ++ pre).
    now rewrite chainDeclarations_step, Hpre, app_assoc.
Qed.

(** X1: [filterModelProperties] returns exactly the properties that the
    flattened map of the model holds under some name and that satisfy the
    predicate; the list has length 0 exactly when the flattened map holds
    no property that satisfies it. *)
Theorem filterModelProperties_membership (model : Model)
    (predicate : ModelProperty -> bool) :
  (forall p, In p (filterModelProperties model predicate) <->
             predicate p = true /\
             exists k, JsMap.get (getAllProperties model None) k = Some p) /\
  (List.length (filterModelProperties model predicate) = 0 <->
   forall k p, JsMap.get (getAllProperties model None) k = Some p ->
               predicate p = false).
Proof.
  assert (Hmem : forall p, In p (filterModelProperties model predicate) <->
             predicate p = true /\
             exists k, JsMap.get (getAllProperties model None) k = Some p).
  { intros p. unfold filterModelProperties, JsMap.values.
    rewrite filter_In, in_map_iff. split.
    - intros [[[k v] [Hv Hin]] Hp]. simpl in Hv. subst v. split; auto.
      exists k. apply JsMap_In_get; auto. apply getAllProperties_keys_NoDup.
    - intros [Hp [k Hget]]. split; auto.
      exists (k, p). split; auto. now apply JsMap_get_In. }
  split; [exact Hmem|]. split.
  - intros Hlen k p Hget. destruct (predicate p) eqn:Hp; auto.
    apply length_zero_iff_nil in Hlen.
    assert (In p (filterModelProperties model predicate)) as Hin
      by (apply Hmem; eauto).
    rewrite Hlen in Hin. destruct Hin.
  - intros Hnone.
    destruct (filterModelProperties model predicate) as [|p rest]; auto.
    destruct (proj1 (Hmem p) (or_introl eq_refl)) as [Hp [k Hget]].
    rewrite (Hnone _ _ Hget) in Hp. discriminate.
Qed.

(** X2: the names of the flattened map are pairwise distinct, and they
    are exactly the names that the model or one of its ancestors
    declares. *)
Theorem getAllProperties_names (model : Model) :
  NoDup (JsMap.keys (getAllProperties model None)) /\
  forall k, In k (JsMap.keys (getAllProperties model None)) <->
            exists a, In a (inheritanceChain model) /\
                      In k (JsMap.keys (properties a)).
Proof.
  split; [apply getAllProperties_keys_NoDup|].
  intros k. rewrite getAllProperties_fresh, JsMap_keys_setAll_In.
  rewrite chainDeclarations_names. simpl. tauto.
Qed.

(** X3: a collection passed to [getAllProperties] keeps its entries in
    their positions; the names the chain declares and the collection
    lacks are appended in the order of their first declaration; under a
    name the chain declares the value becomes the chain's last
    declaration, and under every other name the collection's value
    stays. *)
Theorem getAllProperties_into_collection (model : Model)
    (collection : JsMap.t ModelProperty) :
  JsMap.keys (getAllProperties model (Some collection)) =
  JsMap.keys collection ++
  JsMap.firstOccurrences (JsMap.keys collection)
    (map fst (chainDeclarations model)) /\
  forall k,
    JsMap.get (getAllProperties model (Some collection)) k =
    match JsMap.lastEntry (chainDeclarations model) k with
    | Some declared => Some declared
    | None => JsMap.get collection k
    end.
Proof.
  rewrite getAllProperties_setAll. split.
  - apply JsMap_keys_setAll.
  - intros k. apply JsMap_get_setAll.
Qed.

(** X4: flattening any type of the chain into the flattened map of the
    model leaves that map as it is. *)
Theorem getAllProperties_absorbs_chain (model a : Model) :
  In a (inheritanceChain model) ->
  getAllProperties a (Some (getAllProperties model None)) =
  getAllProperties model None.
Proof.
  intros Hin. destruct (chainDeclarations_suffix model a Hin) as [pre Hpre].
  rewrite getAllProperties_setAll, getAllProperties_fresh, Hpre.
  apply JsMap_setAll_absorbs.
Qed.

(** X4, on [Parent] in the chain of [Child]. *)
Lemma getAllProperties_absorbs_chain_parent :
  In Parent (inheritanceChain Child) /\
  getAllProperties Parent (Some (getAllProperties Child None)) =
  getAllProperties Child None.
Proof.
  assert (Hin : In Parent (inheritanceChain Child)) by (right; now left).
  split; [exact Hin|].
  exact (getAllProperties_absorbs_chain Child Parent Hin).
Defined.

(* ================================================================== *)
(** * Further properties of the normalizer and the classifier *)
(* ================================================================== *)

Lemma onlyModels_none (ts : list TType) :
  forallb (fun t => negb (isModel t)) ts = true -> onlyModels ts = [].
Proof.
  induction ts as [|t rest IH]; simpl; auto.
  intros H. apply andb_true_iff in H. destruct H as [Ht Hrest].
  rewrite (IH Hrest). now destruct t.
Qed.

Lemma forallb_through_map (A B : Type) (f : B -> bool) (g : A -> B)
    (l : list A) :
  forallb f (map g l) = forallb (fun x => f (g x)) l.
Proof. induction l as [|x rest IH]; simpl; auto. now rewrite IH. Qed.

(** X5: the normalizer looks at the direct members of a union or tuple
    only: a union and a tuple none of whose direct members is a model
    give no candidate, whatever those members contain. *)
Theorem filterResponseModels_no_descent (predicate : Model -> bool)
    (variants : list (VariantKey * TType)) (values : list TType) :
  forallb (fun v => negb (isModel (snd v))) variants = true ->
  forallb (fun t => negb (isModel t)) values = true ->
  filterResponseModels
    {| responses := [response (TUnion variants); response (TTuple values)] |}
    predicate
  = None.
Proof.
  intros Hvariants Hvalues. rewrite filterResponseModels_eq.
  unfold responseModels. simpl.
  rewrite (onlyModels_none values Hvalues).
  rewrite (onlyModels_none (map snd variants)); [reflexivity|].
  now rewrite forallb_through_map.
Qed.

(** X5, on a union inside a union and a tuple inside a tuple, each
    holding a model that any predicate would accept. *)
Lemma filterResponseModels_no_descent_nested :
  let variants :=
    [(VariantName "inner", TUnion [(VariantName "ok", TModel OkBody)])] in
  let values := [TTuple [TModel OkBody]] in
  forallb (fun v => negb (isModel (snd v))) variants = true /\
  forallb (fun t => negb (isModel t)) values = true /\
  filterResponseModels
    {| responses := [response (TUnion variants); response (TTuple values)] |}
    (fun _ => true)
  = None.
Proof.
  intros variants values. split; [reflexivity|]. split; [reflexivity|].
  apply (filterResponseModels_no_descent (fun _ => true) variants values);
    reflexivity.
Defined.

Lemma filter_filter_andb (A : Type) (f g : A -> bool) (l : list A) :
  filter g (filter f l) = filter (fun x => f x && g x) l.
Proof.
  induction l as [|x rest IH]; simpl; auto.
  destruct (f x); simpl; [|exact IH].
  destruct (g x); now rewrite IH.
Qed.

(** X6: normalizing with the conjunction of two predicates is
    normalizing with the first and filtering the result with the second,
    with the absent sentinel in place of an empty result. *)
Theorem filterResponseModels_conjunction (operation : HttpOperation)
    (p q : Model -> bool) :
  filterResponseModels operation (fun m => p m && q m) =
  match filterResponseModels operation p with
  | None => None
  | Some models =>
      match filter q models with
      | [] => None
      | kept => Some kept
      end
  end.
Proof.
  rewrite !filterResponseModels_eq, <- filter_filter_andb.
  now destruct (filter p (responseModels operation)).
Qed.

Lemma find_app_or_else (A : Type) (f : A -> bool) (l1 l2 : list A) :
  find f (l1 ++ l2) =
  match find f l1 with Some x => Some x | None => find f l2 end.
Proof.
  induction l1 as [|x rest IH]; simpl; auto. now destruct (f x).
Qed.

(** X7: over the responses [rs1 ++ rs2] the success response is the one
    of [rs1] when there is one, and the one of [rs2] otherwise; an
    operation without responses has none. *)
Theorem getSuccessResponse_or_else (program : Program)
    (rs1 rs2 : list HttpOperationResponse) :
  getSuccessResponse program {| responses := rs1 ++ rs2 |} =
  match getSuccessResponse program {| responses := rs1 |} with
  | Some m => Some m
  | None => getSuccessResponse program {| responses := rs2 |}
  end /\
  getSuccessResponse program {| responses := [] |} = None.
Proof.
  split; [|reflexivity].
  rewrite !getSuccessResponse_find. unfold responseModels. simpl.
  rewrite flat_map_app. apply find_app_or_else.
Qed.

(** X8: a model whose status-code field has a type that is neither a
    literal string nor a literal number is never the success response,
    error type or not. *)
Theorem getSuccessResponse_needs_literal_status (program : Program)
    (operation : HttpOperation) (m : Model) (field : ModelProperty) :
  getStatusCodeProperty program m = Some field ->
  isLiteralKind (propertyType field) = false ->
  getSuccessResponse program operation <> Some m.
Proof.
  intros Hfield Hkind Hsuccess.
  rewrite getSuccessResponse_find in Hsuccess.
  apply find_some in Hsuccess. destruct Hsuccess as [_ Hm].
  unfold isSuccessCandidate in Hm. apply andb_true_iff in Hm.
  destruct Hm as [_ Hm].
  rewrite <- getStatusCodeProperty_find, Hfield in Hm.
  unfold statusCodeAccepted in Hm.
  destruct (propertyType field) as [[a|vs|ts|s|v|s|k]|]; discriminate.
Qed.

(** X8, on a model whose status code is the union [200 | 201]. *)
Lemma getSuccessResponse_needs_literal_status_either :
  getStatusCodeProperty sampleProgram EitherBody =
  Some (statusCode (TUnion [(VariantSymbol 0, TNumber 200);
                            (VariantSymbol 1, TNumber 201)])) /\
  isErrorModel sampleProgram EitherBody = false /\
  getSuccessResponse sampleProgram
    {| responses := [response (TModel EitherBody)] |}
  <> Some EitherBody.
Proof.
  split; [reflexivity|]. split; [reflexivity|].
  apply (@getSuccessResponse_needs_literal_status sampleProgram
           {| responses := [response (TModel EitherBody)] |} EitherBody
           (statusCode (TUnion [(VariantSymbol 0, TNumber 200);
                                (VariantSymbol 1, TNumber 201)])));
    reflexivity.
Defined.

(* ================================================================== *)
(** * Further properties of the boundary and the field search *)
(* ================================================================== *)

(** X9: [getOperationResponse] keeps every event the sink held, then
    passes on the HTTP library's diagnostics as one batch when there are
    some, and after that makes its own report when the operation has no
    success response; it adds nothing else. *)
Theorem getOperationResponse_sink_order (program : Program)
    (operation : Operation) :
  sink (snd (getOperationResponse program operation)) =
  sink program ++
  match snd (getHttpOperation program operation) with
  | [] => []
  | diagnostics => [ReportDiagnostics diagnostics]
  end ++
  match getSuccessResponse program (fst (getHttpOperation program operation)) with
  | None => [ReportDiagnostic "expected-success-response" operation]
  | Some _ => []
  end.
Proof.
  rewrite getOperationResponse_eq. cbn [snd].
  destruct (getSuccessResponse program
              (fst (getHttpOperation program operation))).
  - now rewrite getHttpMetadata_sink, app_nil_r.
  - unfold reportDiagnostic, emit. cbn [sink].
    now rewrite getHttpMetadata_sink, app_assoc.
Qed.

Lemma getResultModelWithProperty_snd (program : Program)
    (operation : Operation) (predicate : ModelProperty -> bool) :
  snd (getResultModelWithProperty program operation predicate) =
  snd (getHttpMetadata program operation).
Proof.
  unfold getResultModelWithProperty.
  destruct (getHttpMetadata program operation) as [h p1]. cbn [snd].
  destruct (filterResponseModels h _) as [models|]; [|reflexivity].
  destruct (List.length models <? 1)%nat; [reflexivity|].
  destruct (nth_error models 0) as [model0|]; [|reflexivity].
  destruct (List.length _ <? 1)%nat; [reflexivity|].
  now destruct (nth_error _ 0).
Qed.

(** X10: the field search makes no report of its own, whether it finds a
    field or not: the sink holds what it held, and after it the HTTP
    library's diagnostics when there are some. *)
Theorem getResultModelWithProperty_reports_nothing (program : Program)
    (operation : Operation) (predicate : ModelProperty -> bool) :
  sink (snd (getResultModelWithProperty program operation predicate)) =
  sink program ++
  match snd (getHttpOperation program operation) with
  | [] => []
  | diagnostics => [ReportDiagnostics diagnostics]
  end /\
  libraryReports
    (emitted program
       (snd (getResultModelWithProperty program operation predicate)))
  = [].
Proof.
  rewrite getResultModelWithProperty_snd. split.
  - apply getHttpMetadata_sink.
  - apply libraryReports_metadata.
Qed.

(** X11: when the field search returns a model and a field, the model is
    the first object type of the responses whose flattened fields hold a
    match, and the field is the first match among the fields the model
    declares itself; the search returns absent exactly when no object
    type of the responses is such a model, or the first one declares no
    match itself. *)
Theorem getResultModelWithProperty_sound (program : Program)
    (operation : Operation) (predicate : ModelProperty -> bool) :
  let candidates :=
    responseModels (fst (getHttpOperation program operation)) in
  let hasMatch m :=
    existsb predicate (JsMap.values (getAllProperties m None)) in
  (forall m field,
      fst (getResultModelWithProperty program operation predicate)
      = Some (m, field) ->
      find hasMatch candidates = Some m /\
      In m candidates /\
      find predicate (JsMap.values (properties m)) = Some field /\
      predicate field = true /\
      exists k, In (k, field) (properties m)) /\
  (fst (getResultModelWithProperty program operation predicate) = None <->
   find hasMatch candidates = None \/
   exists m, find hasMatch candidates = Some m /\
             find predicate (JsMap.values (properties m)) = None).
Proof.
  intros candidates hasMatch. rewrite getResultModelWithProperty_eq.
  fold candidates. fold hasMatch.
  destruct (find hasMatch candidates) as [model0|] eqn:Hfirst.
  - destruct (find predicate (JsMap.values (properties model0)))
      as [property0|] eqn:Hown.
    + split.
      * intros m field [= <- <-]. split; [reflexivity|].
        split; [now apply find_some in Hfirst|]. split; [exact Hown|].
        apply find_values_In in Hown. exact Hown.
      * split; [discriminate|].
        intros [H|[m [[= <-] H]]]; [discriminate | congruence].
    + split; [discriminate|]. split; [|reflexivity].
      intros _. right. exists model0. auto.
  - split; [discriminate|]. split; auto.
Qed.

(** X11, on the operation with an error response and a 200 response and
    the status-code predicate. *)
Lemma getResultModelWithProperty_sound_read :
  fst (getResultModelWithProperty sampleProgram opRead
         (isStatusCode sampleProgram))
  = Some (ErrorBody, statusCode (TString (Some "404"))) /\
  In ErrorBody (responseModels (fst (getHttpOperation sampleProgram opRead))) /\
  isStatusCode sampleProgram (statusCode (TString (Some "404"))) = true.
Proof.
  assert (Hrun : fst (getResultModelWithProperty sampleProgram opRead
                        (isStatusCode sampleProgram))
                 = Some (ErrorBody, statusCode (TString (Some "404"))))
    by reflexivity.
  split; [exact Hrun|].
  destruct (proj1 (getResultModelWithProperty_sound sampleProgram opRead
                     (isStatusCode sampleProgram)) _ _ Hrun)
    as (_ & Hin & _ & Hpred & _).
  split; assumption.
Defined.

Section FlatModels.
Variable V : Type.

Lemma JsMap_set_new (m : JsMap.t V) k v :
  ~ In k (JsMap.keys m) -> JsMap.set m k v = m ++ [(k, v)].
Proof.
  induction m as [|[k' v'] rest IH]; simpl; auto.
  intros Hout. destruct (String.eqb k' k) eqn:E.
  - apply String.eqb_eq in E. destruct Hout. auto.
  - rewrite IH; auto.
Qed.

Lemma JsMap_setAll_new (es : list (string * V)) : forall m : JsMap.t V,
  NoDup (JsMap.keys m ++ map fst es) -> JsMap.setAll m es = m ++ es.
Proof.
  unfold JsMap.setAll.
  induction es as [|[k v] rest IH]; intros m Hnd; simpl.
  - now rewrite app_nil_r.
  - simpl in Hnd. rewrite JsMap_set_new.
    + rewrite IH; [now rewrite <- app_assoc|].
      unfold JsMap.keys. rewrite map_app, <- app_assoc. exact Hnd.
    + apply NoDup_remove_2 in Hnd. intros Hin. apply Hnd.
      apply in_or_app. now left.
Qed.

End FlatModels.

(** A model without base type and with distinct property names is its
    own flattened map. *)
Lemma getAllProperties_flat (m : Model) :
  baseModel m = None -> NoDup (JsMap.keys (properties m)) ->
  getAllProperties m None = properties m.
Proof.
  destruct m as [n ps base]. simpl. intros -> Hnd.
  now rewrite JsMap_setAll_new.
Qed.

(** X12: when the object types of the responses have no base type (and
    distinct property names, as every [Map] has), the field search
    returns the first object type whose fields hold a match, with the
    first match of its flattened fields. *)
Theorem getResultModelWithProperty_flat (program : Program)
    (operation : Operation) (predicate : ModelProperty -> bool) :
  (forall m, In m (responseModels (fst (getHttpOperation program operation))) ->
             baseModel m = None /\ NoDup (JsMap.keys (properties m))) ->
  fst (getResultModelWithProperty program operation predicate) =
  findFieldAcrossResponses (fst (getHttpOperation program operation)) predicate.
Proof.
  intros Hflat. rewrite getResultModelWithProperty_eq.
  unfold findFieldAcrossResponses.
  destruct (find _ (responseModels (fst (getHttpOperation program operation))))
    as [model0|] eqn:Hfirst; [|reflexivity].
  apply find_some in Hfirst. destruct Hfirst as [Hin _].
  destruct (Hflat _ Hin) as [Hbase Hnd].
  now rewrite (getAllProperties_flat model0 Hbase Hnd).
Qed.

(** X12, on the operation with an error response and a 200 response. *)
Lemma getResultModelWithProperty_flat_read :
  (forall m, In m (responseModels (fst (getHttpOperation sampleProgram opRead))) ->
             baseModel m = None /\ NoDup (JsMap.keys (properties m))) /\
  fst (getResultModelWithProperty sampleProgram opRead
         (isStatusCode sampleProgram))
  = Some (ErrorBody, statusCode (TString (Some "404"))).
Proof.
  assert (Hflat : forall m,
             In m (responseModels (fst (getHttpOperation sampleProgram opRead))) ->
             baseModel m = None /\ NoDup (JsMap.keys (properties m))).
  { intros m [<-|[<-|[]]]; (split; [reflexivity|]); simpl.
    - constructor; [intros []|constructor].
    - constructor; [intros [H|[]]; discriminate H|].
      constructor; [intros []|constructor]. }
  split; [exact Hflat|].
  rewrite (getResultModelWithProperty_flat sampleProgram opRead
             (isStatusCode sampleProgram) Hflat).
  reflexivity.
Defined.

(* ================================================================== *)
(** * The collection passed to the walk over linked objects *)
(* ================================================================== *)

Section UpdateAtMore.
Variable A : Type.
Implicit Types (l : list A) (f : A -> A).

Lemma updateAt_length l i f : List.length (Ref.updateAt l i f) = List.length l.
Proof.
  revert i. induction l as [|x rest IH]; intros [|i]; simpl; auto.
Qed.

Lemma updateAt_same l i f :
  nth_error (Ref.updateAt l i f) i = option_map f (nth_error l i).
Proof.
  revert i. induction l as [|x rest IH]; intros [|i]; simpl; auto.
Qed.

Lemma updateAt_other l i j f :
  i <> j -> nth_error (Ref.updateAt l i f) j = nth_error l j.
Proof.
  revert i j. induction l as [|x rest IH]; intros [|i] [|j] Hne; simpl; auto.
  congruence.
Qed.

End UpdateAtMore.

(** X13: called with a collection, [getAllProperties] returns that very
    collection and allocates no [Map]: the [set]s of the chain's
    declarations are made on the caller's [Map], and every other [Map]
    stays as it was. *)
Theorem getAllProperties_mutates_collection (store : Ref.ModelStore)
    (r : Ref.ModelRef) (l : list Ref.ModelRef) :
  Ref.Chain store r l ->
  forall fuel c h, List.length l <= fuel ->
  exists h',
    Ref.getAllProperties fuel store r (Some c) h = Some (c, h') /\
    List.length (Ref.maps h') = List.length (Ref.maps h) /\
    Ref.readMap h' c =
    option_map (fun m => JsMap.setAll m (Ref.declarationsOf store l))
               (Ref.readMap h c) /\
    forall c', c <> c' -> Ref.readMap h' c' = Ref.readMap h c'.
Proof.
  intros Hchain fuel c h Hfuel.
  rewrite (Ref_walk_into Hchain c h Hfuel).
  eexists. split; [reflexivity|]. unfold Ref.readMap. cbn [Ref.maps].
  split; [apply updateAt_length|]. split; [apply updateAt_same|].
  intros c' Hne. now apply updateAt_other.
Qed.

(** X13, on the three-level chain and a collection that already holds
    an entry. *)
Lemma getAllProperties_mutates_collection_child :
  let h := {| Ref.maps := [[("etag", childTag)]; [("kept", childTag)]];
              Ref.entered := [] |} in
  Ref.Chain (Ref.storeOf Child) 0 [0; 1; 2] /\
  exists h',
    Ref.getAllProperties 3 (Ref.storeOf Child) 0 (Some 0) h = Some (0, h') /\
    Ref.readMap h' 0 =
    Some [("etag", grandparentEtag); ("tag", childTag); ("id", grandparentId)] /\
    Ref.readMap h' 1 = Some [("kept", childTag)].
Proof.
  intros h.
  assert (Hchain : Ref.Chain (Ref.storeOf Child) 0 [0; 1; 2]).
  { apply Ref.ChainStep with (b := 1); [reflexivity|].
    apply Ref.ChainStep with (b := 2); [reflexivity|].
    apply Ref.ChainRoot. reflexivity. }
  split; [exact Hchain|].
  destruct (getAllProperties_mutates_collection Hchain 0 h (le_n 3))
    as (h' & Hrun & _ & Hsame & Hother).
  exists h'. split; [exact Hrun|]. split.
  - rewrite Hsame. reflexivity.
  - rewrite (Hother 1); [reflexivity | discriminate].
Defined.

(* ================================================================== *)
(** * The version label of the documentation site *)
(* ================================================================== *)

Lemma dotFree_cons (c : ascii) (s : string) :
  Website.dotFree (String c s) = negb (Ascii.eqb c ".") && Website.dotFree s.
Proof. reflexivity. Qed.

Lemma split_dotFree (s : string) :
  Website.dotFree s = true -> Website.split "." s = [s].
Proof.
  induction s as [|c rest IH]; [reflexivity|].
  rewrite dotFree_cons. intros H. apply andb_true_iff in H.
  destruct H as [Hc Hrest]. apply negb_true_iff in Hc.
  cbn [Website.split]. now rewrite Hc, (IH Hrest).
Qed.

Lemma split_at_dot (a b : string) :
  Website.dotFree a = true ->
  Website.split "." (a ++ String "." b) = a :: Website.split "." b.
Proof.
  induction a as [|c rest IH]; [reflexivity|].
  rewrite dotFree_cons. intros H. apply andb_true_iff in H.
  destruct H as [Hc Hrest]. apply negb_true_iff in Hc.
  cbn [Website.split append]. now rewrite Hc, (IH Hrest).
Qed.

(** X14: for a version [major.minor.rest], and for a version
    [major.minor], the label is [major.minor.x], whatever follows the
    second dot; a version without a dot gives [version.undefined.x]. *)
Theorem getMajorMinorVersion_label (require : string -> string)
    (pkgJsonPath : string) :
  (forall major minor rest,
      Website.dotFree major = true -> Website.dotFree minor = true ->
      require pkgJsonPath = (major ++ "." ++ minor ++ "." ++ rest)%string ->
      Website.getMajorMinorVersion require pkgJsonPath =
      (major ++ "." ++ minor ++ ".x")%string) /\
  (forall major minor,
      Website.dotFree major = true -> Website.dotFree minor = true ->
      require pkgJsonPath = (major ++ "." ++ minor)%string ->
      Website.getMajorMinorVersion require pkgJsonPath =
      (major ++ "." ++ minor ++ ".x")%string) /\
  (Website.dotFree (require pkgJsonPath) = true ->
   Website.getMajorMinorVersion require pkgJsonPath =
   (require pkgJsonPath ++ ".undefined.x")%string).
Proof.
  unfold Website.getMajorMinorVersion. repeat split.
  - intros major minor rest Hmajor Hminor ->.
    change (major ++ "." ++ minor ++ "." ++ rest)%string
      with (major ++ String "." (minor ++ String "." rest))%string.
    now rewrite (split_at_dot major _ Hmajor), (split_at_dot minor _ Hminor).
  - intros major minor Hmajor Hminor ->.
    change (major ++ "." ++ minor)%string
      with (major ++ String "." minor)%string.
    now rewrite (split_at_dot major _ Hmajor), (split_dotFree minor Hminor).
  - intros Hfree. now rewrite (split_dotFree _ Hfree).
Qed.

(** X14, on a development version and on a version without dots. *)
Lemma getMajorMinorVersion_label_samples :
  Website.getMajorMinorVersion (fun _ => "0.38.0-dev.4")
    "../typespec-azure-core/package.json" = "0.38.x" /\
  Website.getMajorMinorVersion (fun _ => "next")
    "../typespec-azure-core/package.json" = "next.undefined.x".
Proof.
  split.
  - apply (proj1 (getMajorMinorVersion_label (fun _ => "0.38.0-dev.4")
                    "../typespec-azure-core/package.json")
             "0" "38" "0-dev.4"); reflexivity.
  - apply (proj2 (proj2 (getMajorMinorVersion_label (fun _ => "next")
                           "../typespec-azure-core/package.json"))).
    reflexivity.
Defined.

(* ================================================================== *)
(** * The success classifier and shadowed status codes *)
(* ================================================================== *)




